(** * Certificate generator: a shallow embedding of [generate.py]

    The program loads a certificate template and a font, and for every name
    of a list draws the name centred on a copy of the template and saves the
    copy as [<output_dir>/<sanitized name>.png].

    The embedding follows the source function by function.  Python strings
    are lists of Unicode code points, exceptions are values of an error
    monad over an explicit world (files, directories, the heap of image
    objects, what was printed), and the libraries the program calls
    (Pillow's codecs and text layout, pandas' CSV reader, the Unicode
    character database) are interfaces.  What Pillow and [pathlib] do
    around those interfaces (allocating and copying image objects, picking
    the format of a saved file from its extension, resolving paths) is
    written out.

    Names are [str] values; the console accepts every line printed. *)

From Stdlib Require Import Ascii String QArith Lqa.
From stdpp Require Import gmap list strings.

Local Open Scope N_scope.

(** ** Python strings *)

(** A [str] is a sequence of code points. *)
Abbreviation pystr := (list N).

(** ASCII literals of the source, as code points. *)
Definition u (s : string) : pystr :=
  (λ a, N_of_ascii a) <$> list_ascii_of_string s.

Definition ch (a : ascii) : N := N_of_ascii a.

(** [sep.join(parts)] *)
Fixpoint join (sep : pystr) (parts : list pystr) : pystr :=
  match parts with
  | [] => []
  | [p] => p
  | p :: rest => p ++ sep ++ join sep rest
  end.

(** The part of the Unicode character database that [str.isalnum] reads
    outside ASCII. *)
Class Unicode := { unicode_isalnum : N → bool }.

(** [c.isalnum()] for a one-character string: letters and digits in ASCII,
    the character database beyond. *)
Definition isalnum `{U : Unicode} (c : N) : bool :=
  if c <? 128 then
    (48 <=? c) && (c <=? 57) || (65 <=? c) && (c <=? 90)
    || (97 <=? c) && (c <=? 122)
  else unicode_isalnum c.

(** The characters [str.strip()] removes ([Py_UNICODE_ISSPACE]). *)
Definition isspace (c : N) : bool :=
  if c <? 128 then
    (9 <=? c) && (c <=? 13) || (28 <=? c) && (c <=? 32)
  else
    (c =? 0x85) || (c =? 0xA0) || (c =? 0x1680)
    || (0x2000 <=? c) && (c <=? 0x200A)
    || (c =? 0x2028) || (c =? 0x2029) || (c =? 0x202F)
    || (c =? 0x205F) || (c =? 0x3000).

Fixpoint lstrip (s : pystr) : pystr :=
  match s with
  | c :: s' => if isspace c then lstrip s' else s
  | [] => []
  end.

Definition rstrip (s : pystr) : pystr := reverse (lstrip (reverse s)).

(** [s.strip()] *)
Definition strip (s : pystr) : pystr := rstrip (lstrip s).

(** ** Filename sanitization (generate.py, line 58) *)

(** [c.isalnum() or c in (' ', '-', '_')] *)
Definition keep_char `{U : Unicode} (c : N) : bool :=
  isalnum c || bool_decide (c ∈ [ch " "; ch "-"; ch "_"]).

(** ["".join(c for c in name if ...).strip()] *)
Definition safe_filename `{U : Unicode} (name : pystr) : pystr :=
  strip (filter (λ c, keep_char c = true) name).

(** [f"{safe_filename}.png"] *)
Definition output_filename `{U : Unicode} (name : pystr) : pystr :=
  safe_filename name ++ u ".png".

(** A character table for closed examples: nothing beyond ASCII counts as
    alphanumeric.  Examples built on it use ASCII names only. *)
Definition ascii_only : Unicode := {| unicode_isalnum := λ _, false |}.

(** ** Exceptions *)

Inductive exn_class :=
  | FileNotFoundError | FileExistsError | PermissionError | OSError
  | ValueError | KeyError | LibraryError | Exception.

(** An exception object: its class and [str(e)].  Every class above derives
    from [Exception], so [except Exception] catches each of them. *)
Record exn := Exn { exn_cls : exn_class; exn_msg : pystr }.

Inductive result (A : Type) :=
  | Ok (a : A)
  | Raise (e : exn).
Arguments Ok {A} a.
Arguments Raise {A} e.

(** ** Paths *)

(** A [pathlib.Path] is its list of components; an absolute POSIX path
    starts with the empty component, so that [str] puts the root slash. *)
Abbreviation path := (list pystr).

Definition path_str (p : path) : pystr := join (u "/") p.

(** [p / name] for a [name] that is a single component. *)
Definition path_div (p : path) (name : pystr) : path := p ++ [name].

Definition is_absolute (p : path) : bool := bool_decide (head p = Some []).

Definition parent (p : path) : path := removelast p.

Definition basename (p : path) : pystr := default [] (last p).

(** ** Extensions ([os.path.splitext], as [Image.save] uses it) *)

Fixpoint rfind (c : N) (s : pystr) : option nat :=
  match s with
  | [] => None
  | d :: s' =>
      match rfind c s' with
      | Some i => Some (S i)
      | None => if d =? c then Some 0%nat else None
      end
  end.

(** [os.path.splitext(filename)[1]] read on the last component: everything
    from the last dot on, where the dots that start the name do not count. *)
Definition splitext_ext (name : pystr) : pystr :=
  match rfind (ch ".") name with
  | None => []
  | Some i =>
      if forallb (λ c, c =? ch ".") (take i name) then [] else drop i name
  end.

(** [str.lower] on the ASCII letters. *)
Definition lower (s : pystr) : pystr :=
  (λ c, if (65 <=? c) && (c <=? 90) then c + 32 else c) <$> s.

(** Pillow's registry [Image.EXTENSION], on the usual raster formats. *)
Definition EXTENSION (ext : pystr) : option pystr :=
  if bool_decide (ext = u ".png") then Some (u "PNG")
  else if bool_decide (ext ∈ [u ".jpg"; u ".jpeg"; u ".jpe"; u ".jfif"])
  then Some (u "JPEG")
  else if bool_decide (ext = u ".bmp") then Some (u "BMP")
  else if bool_decide (ext = u ".gif") then Some (u "GIF")
  else if bool_decide (ext ∈ [u ".tif"; u ".tiff"]) then Some (u "TIFF")
  else None.

(** ** The imaging library *)

Abbreviation blob := (list N).
Abbreviation bbox := (Z * Z * Z * Z)%type.

(** What the program asks of Pillow: decoding a font and an image, laying
    out and drawing a text, encoding an image.  Each call may raise. *)
Class Imaging := {
  Image : Type;
  FreeTypeFont : Type;
  (** [im.size] *)
  image_size : Image → Z * Z;
  (** [ImageFont.truetype] on the bytes of the font file *)
  decode_font : blob → Z → result FreeTypeFont;
  (** [Image.open] on the bytes of the image file *)
  decode_image : blob → result Image;
  (** [draw.textbbox(xy, text, font=font)]: left, top, right, bottom *)
  textbbox : Z * Z → pystr → FreeTypeFont → result bbox;
  (** [draw.text(xy, text, fill=fill, font=font)]: the picture afterwards *)
  draw_text : Image → Q * Q → pystr → pystr → FreeTypeFont → result Image;
  (** the encoder registered for a format *)
  encode : pystr → Image → result blob
}.

(** ** The table reader *)

(** A data frame: the column labels in file order, each with its cells. *)
Abbreviation DataFrame := (list (pystr * list pystr)).

Definition columns (df : DataFrame) : list pystr := fst <$> df.

(** [df[label].tolist()] *)
Fixpoint column (df : DataFrame) (label : pystr) : option (list pystr) :=
  match df with
  | [] => None
  | (l, cells) :: df' =>
      if bool_decide (l = label) then Some cells else column df' label
  end.

(** [pd.read_csv] on the bytes of the file. *)
Class Tabular := { parse_csv : blob → result DataFrame }.

(** ** What the program prints *)

(** One constructor per [print] statement of the source, with the values
    interpolated into its f-string. *)
Inductive line :=
  | PCurrentDirectory (p : path)
  | PCheckingFiles
  | PTemplateExists (b : bool)
  | PFontExists (b : bool)
  | PCsvExists (b : bool)
  | PReadingNames (p : pystr)
  | PCsvColumns (cols : list pystr)
  | PNoNames
  | PFoundNames (n : nat) (first5 : list pystr)
  | PCreatingGenerator
  | PGenerating (n : nat)
  | PRule
  | PGenerated (name : pystr)
  | PErrorGenerating (name msg : pystr)
  | PComplete
  | PSuccessful (n : nat)
  | PFailed (n : nat)
  | POutputDirectory (p : path)
  | PError (msg : pystr).

(** The calls into the decoders, in the order they are made. *)
Inductive libcall :=
  | CallTruetype (p : path) (size : Z)
  | CallImageOpen (p : path)
  | CallReadCsv (p : path).

(** Image objects live in a heap and are named by their address. *)
Abbreviation loc := positive.

Section Program.
Context `{U : Unicode} `{I : Imaging} `{T : Tabular}.

(** ** The world *)

Record world := World {
  cwd : path;                 (** current directory, absolute *)
  files : gmap path blob;     (** regular files, by absolute path *)
  dirs : gset path;           (** directories, by absolute path *)
  denied : gset path;         (** what the OS refuses to create or write *)
  heap : gmap loc Image;      (** the image objects *)
  stdout : list line;         (** what was printed, oldest first *)
  calls : list libcall        (** decoder calls, oldest first *)
}.

Definition set_files (f : gmap path blob) (w : world) : world :=
  World (cwd w) f (dirs w) (denied w) (heap w) (stdout w) (calls w).
Definition set_dirs (d : gset path) (w : world) : world :=
  World (cwd w) (files w) d (denied w) (heap w) (stdout w) (calls w).
Definition set_heap (h : gmap loc Image) (w : world) : world :=
  World (cwd w) (files w) (dirs w) (denied w) h (stdout w) (calls w).
Definition add_stdout (l : line) (w : world) : world :=
  World (cwd w) (files w) (dirs w) (denied w) (heap w) (stdout w ++ [l])
    (calls w).
Definition add_call (c : libcall) (w : world) : world :=
  World (cwd w) (files w) (dirs w) (denied w) (heap w) (stdout w)
    (calls w ++ [c]).

(** ** Computations that may raise *)

Definition M (A : Type) : Type := world → result A * world.

#[global] Instance M_ret : MRet M := λ A a w, (Ok a, w).

#[global] Instance M_bind : MBind M := λ A B k m w,
  match m w with
  | (Ok a, w') => k a w'
  | (Raise e, w') => (Raise e, w')
  end.

Definition raise {A} (c : exn_class) (msg : pystr) : M A :=
  λ w, (Raise (Exn c msg), w).

(** [try: body / except Exception as e: handler e] *)
Definition try_except {A} (body : M A) (handler : exn → M A) : M A := λ w,
  match body w with
  | (Ok a, w') => (Ok a, w')
  | (Raise e, w') => handler e w'
  end.

Definition lift {A} (r : result A) : M A := λ w, (r, w).

Definition print (l : line) : M unit := λ w, (Ok (), add_stdout l w).

(** ** Files and directories *)

Definition resolve (w : world) (p : path) : path :=
  if is_absolute p then p else cwd w ++ p.

(** [p.absolute()] *)
Definition absolute (p : path) : M path := λ w, (Ok (resolve w p), w).

(** [p.exists()] *)
Definition path_exists (p : path) : M bool := λ w,
  (Ok (bool_decide (resolve w p ∈ dom (files w))
       || bool_decide (resolve w p ∈ dirs w)), w).

Definition read_file (p : path) : M blob := λ w,
  match files w !! resolve w p with
  | Some b => (Ok b, w)
  | None => (Raise (Exn FileNotFoundError (path_str p)), w)
  end.

(** The directories [mkdir] walks through, outermost first. *)
Definition ancestors (p : path) : list path :=
  (λ n, take n p) <$> seq 1 (length p).

Fixpoint mkdir_each (qs : list path) : M unit :=
  match qs with
  | [] => mret ()
  | q :: qs' => λ w,
      if bool_decide (q ∈ dirs w) then mkdir_each qs' w
      else if bool_decide (q ∈ dom (files w))
      then (Raise (Exn FileExistsError (path_str q)), w)
      else if bool_decide (q ∈ denied w)
      then (Raise (Exn PermissionError (path_str q)), w)
      else mkdir_each qs' (set_dirs ({[q]} ∪ dirs w) w)
  end.

(** [p.mkdir(parents=True, exist_ok=True)] *)
Definition mkdir (p : path) : M unit := λ w,
  mkdir_each (ancestors (resolve w p)) w.

(** ** Pillow calls *)

(** [ImageFont.truetype(str(p), size)] *)
Definition ImageFont_truetype (p : path) (size : Z) : M FreeTypeFont :=
  (λ w, (Ok (), add_call (CallTruetype p size) w)) ;;
  b ← read_file p;
  lift (decode_font b size).

Definition alloc (img : Image) : M loc := λ w,
  let l := fresh (dom (heap w)) in
  (Ok l, set_heap (<[l := img]> (heap w)) w).

Definition load (l : loc) : M Image := λ w,
  match heap w !! l with
  | Some img => (Ok img, w)
  | None => (Raise (Exn LibraryError []), w)
  end.

Definition store (l : loc) (img : Image) : M unit := λ w,
  (Ok (), set_heap (<[l := img]> (heap w)) w).

(** [Image.open(p)]: a new image object holding the decoded file.  Pillow
    reads the pixels at the first use of the object; the picture is the one
    of the file either way. *)
Definition Image_open (p : path) : M loc :=
  (λ w, (Ok (), add_call (CallImageOpen p) w)) ;;
  b ← read_file p;
  img ← lift (decode_image b);
  alloc img.

(** [im.copy()]: a new image object with the same picture. *)
Definition Image_copy (l : loc) : M loc :=
  img ← load l;
  alloc img.

(** [draw.text(xy, text, fill=fill, font=font)], for [draw] made by
    [ImageDraw.Draw] on the image object [l]: the object is drawn on in
    place. *)
Definition ImageDraw_text (l : loc) (xy : Q * Q) (text fill : pystr)
    (font : FreeTypeFont) : M unit :=
  img ← load l;
  img' ← lift (draw_text img xy text fill font);
  store l img'.

(** [im.save(p)], without a [format] argument, as Pillow does it:
    [ext = os.path.splitext(filename)[1].lower()], then [EXTENSION[ext]],
    whose [KeyError] becomes [ValueError("unknown file extension: " + ext)];
    then the file is opened for writing and receives the encoded picture.
    When the encoder raises, a file that [save] created is removed again
    and one that was there stays truncated. *)
Definition Image_save (l : loc) (p : path) : M unit := λ w,
  let ext := lower (splitext_ext (basename p)) in
  match EXTENSION ext with
  | None => (Raise (Exn ValueError (u "unknown file extension: " ++ ext)), w)
  | Some format =>
      let q := resolve w p in
      if negb (bool_decide (parent q ∈ dirs w))
      then (Raise (Exn FileNotFoundError (path_str p)), w)
      else if bool_decide (q ∈ dirs w)
      then (Raise (Exn OSError (path_str p)), w)
      else if bool_decide (q ∈ denied w)
      then (Raise (Exn PermissionError (path_str p)), w)
      else
        match heap w !! l with
        | None => (Raise (Exn LibraryError []), w)
        | Some img =>
            match encode format img with
            | Ok b => (Ok (), set_files (<[q := b]> (files w)) w)
            | Raise e =>
                (Raise e,
                 if bool_decide (q ∈ dom (files w))
                 then set_files (<[q := []]> (files w)) w else w)
            end
        end
  end.

(** [pd.read_csv(p)] *)
Definition read_csv (p : path) : M DataFrame :=
  (λ w, (Ok (), add_call (CallReadCsv p) w)) ;;
  b ← read_file p;
  lift (parse_csv b).

(** ** class CertificateGenerator *)

(** The attributes of [self].  The methods below only read them. *)
Record CertificateGenerator := {
  template_path : path;
  font_path : path;
  font_size : Z;
  font_color : pystr;
  output_dir : path;
  font : FreeTypeFont;
  template : loc;
  width : Z;
  height : Z
}.

Definition _validate_paths (tp fp : path) : M unit :=
  te ← path_exists tp;
  if negb te
  then raise FileNotFoundError (u "Template file not found: " ++ path_str tp)
  else
    fe ← path_exists fp;
    if negb fe
    then raise FileNotFoundError (u "Font file not found: " ++ path_str fp)
    else mret ().

Definition __init__ (tp fp : path) (size : Z) (color : pystr) (out : path)
    : M CertificateGenerator :=
  _validate_paths tp fp ;;
  fnt ← ImageFont_truetype fp size;
  tmpl ← Image_open tp;
  img ← load tmpl;
  mkdir out ;;
  mret {| template_path := tp; font_path := fp; font_size := size;
          font_color := color; output_dir := out; font := fnt;
          template := tmpl; width := (image_size img).1;
          height := (image_size img).2 |}.

(** The quotients are what Python's true division computes: halves of
    pixel counts are exact in binary64. *)
Definition _calculate_text_position (self : CertificateGenerator)
    (draw : loc) (text : pystr) : M (Q * Q) :=
  '(bbox0, bbox1, bbox2, bbox3) ← lift (textbbox (0, 0)%Z text (font self));
  let text_width := (bbox2 - bbox0)%Z in
  let text_height := (bbox3 - bbox1)%Z in
  let x := (inject_Z (width self - text_width) / 2)%Q in
  let y := (inject_Z (height self - text_height) / 2 - 30)%Q in
  mret (x, y).

(** [ImageDraw.Draw(image)] is a handle on the image object: [draw] is
    the address of [image]. *)
Definition generate_certificate (self : CertificateGenerator)
    (name : pystr) : M (option path) :=
  try_except
    (image ← Image_copy (template self);
     let draw := image in
     '(x, y) ← _calculate_text_position self draw name;
     ImageDraw_text draw (x, y) name (font_color self) (font self) ;;
     let output_path := path_div (output_dir self) (output_filename name) in
     Image_save image output_path ;;
     print (PGenerated name) ;;
     mret (Some output_path))
    (λ e,
     print (PErrorGenerating name (exn_msg e)) ;;
     mret None).

(** The [for] loop of [generate_batch], with its two counters. *)
Fixpoint batch_loop (self : CertificateGenerator) (names : list pystr)
    (successful failed : nat) : M (nat * nat) :=
  match names with
  | [] => mret (successful, failed)
  | name :: rest =>
      r ← generate_certificate self name;
      match r with
      | Some _ => batch_loop self rest (successful + 1)%nat failed
      | None => batch_loop self rest successful (failed + 1)%nat
      end
  end.

(** [generate_batch] has no [return] statement: it answers [None].  A
    [Path] is truthy, so [if self.generate_certificate(name)] asks whether
    the render returned its path. *)
Definition generate_batch (self : CertificateGenerator)
    (names : list pystr) : M unit :=
  print (PGenerating (length names)) ;;
  print PRule ;;
  '(successful, failed) ← batch_loop self names 0%nat 0%nat;
  print PRule ;;
  print PComplete ;;
  print (PSuccessful successful) ;;
  print (PFailed failed) ;;
  d ← absolute (output_dir self);
  print (POutputDirectory d).

(** ** Reading the names *)

Definition read_names_from_csv (csv_path : path) (name_column : pystr)
    : M (list pystr) :=
  try_except
    (df ← read_csv csv_path;
     if bool_decide (name_column ∉ columns df)
     then raise ValueError
            (u "Column '" ++ name_column
             ++ u "' not found in CSV file. Available columns: "
             ++ join (u ", ") (columns df))
     else
       match column df name_column with
       | Some cells => mret cells
       | None => raise KeyError name_column
       end)
    (λ e, raise Exception (u "Error reading CSV file: " ++ exn_msg e)).

(** ** The entry point *)

Definition config_template_path : path :=
  [u "C:"; u "Users"; u "Admin"; u "Desktop"; u "certificates";
   u "template.png"].
Definition config_font_path : path :=
  [u "C:"; u "Users"; u "Admin"; u "Desktop"; u "certificates";
   u "GreatVibes-Regular.ttf"].
Definition config_font_size : Z := 180.
Definition config_font_color : pystr := u "#86529f".
Definition config_output_dir : path :=
  [u "C:"; u "Users"; u "Admin"; u "Desktop"; u "certificates"; u "certi"].
Definition config_csv_path : path :=
  [u "C:"; u "Users"; u "Admin"; u "Desktop"; u "certificates";
   u "Book1.csv"].

(** [traceback.print_exc()] writes to the error stream, which the world
    does not record. *)
Definition main : M unit :=
  try_except
    (c ← (λ w, (Ok (cwd w), w));
     print (PCurrentDirectory c) ;;
     print PCheckingFiles ;;
     te ← path_exists config_template_path;
     print (PTemplateExists te) ;;
     fe ← path_exists config_font_path;
     print (PFontExists fe) ;;
     ce ← path_exists config_csv_path;
     print (PCsvExists ce) ;;
     print (PReadingNames (path_str config_csv_path)) ;;
     df ← read_csv config_csv_path;
     print (PCsvColumns (columns df)) ;;
     names ← read_names_from_csv config_csv_path (u "name");
     match names with
     | [] => print PNoNames
     | _ =>
         print (PFoundNames (length names) (take 5 names)) ;;
         print PCreatingGenerator ;;
         generator ← __init__ config_template_path config_font_path
                       config_font_size config_font_color config_output_dir;
         generate_batch generator names
     end)
    (λ e, print (PError (exn_msg e))).

End Program.

(** ** Reading the output back *)

Definition is_generated (l : line) : bool :=
  match l with PGenerated _ => true | _ => false end.

Definition is_error (l : line) : bool :=
  match l with PErrorGenerating _ _ => true | _ => false end.

(** The per-name line a render leaves: for which name, and whether it
    succeeded. *)
Definition status_of (l : line) : option (pystr * bool) :=
  match l with
  | PGenerated name => Some (name, true)
  | PErrorGenerating name _ => Some (name, false)
  | _ => None
  end.

(** What was printed between two worlds. *)
Definition printed_since `{I : Imaging} (w w' : world) : list line :=
  drop (length (stdout w)) (stdout w').

(** What a render may change: it prints, it adds image objects and files;
    it leaves the rest, and every image object that was there, as it was. *)
Definition extends `{I : Imaging} (w w' : world) (new : list line) : Prop :=
  cwd w' = cwd w ∧ dirs w' = dirs w ∧ denied w' = denied w
  ∧ calls w' = calls w ∧ heap w ⊆ heap w'
  ∧ dom (files w) ⊆ dom (files w') ∧ stdout w' = stdout w ++ new.

(** Nothing, file or directory, is at the path. *)
Definition absent `{I : Imaging} (w : world) (p : path) : Prop :=
  (resolve w p ∉ dom (files w)) ∧ (resolve w p ∉ dirs w).

(** The message of [read_names_from_csv] for a column that is not there. *)
Definition missing_column_message (name_column : pystr) (df : DataFrame)
    : pystr :=
  u "Error reading CSV file: " ++ u "Column '" ++ name_column
  ++ u "' not found in CSV file. Available columns: "
  ++ join (u ", ") (columns df).

(** The lines of one [generate_batch] call. *)
Definition batch_report (n : nat) (statuses : list line) (successful failed : nat)
    (d : path) : list line :=
  [PGenerating n; PRule] ++ statuses
  ++ [PRule; PComplete; PSuccessful successful; PFailed failed;
      POutputDirectory d].

(** Where the certificate of a name goes, as an absolute path. *)
Definition certificate_file `{U : Unicode} `{I : Imaging}
    (self : CertificateGenerator) (w : world) (name : pystr) : path :=
  resolve w (path_div (output_dir self) (output_filename name)).

(** A status line tells of one render of [name]: a success, with the file
    in place in the world [w'], or a failure. *)
Definition attempt `{U : Unicode} `{I : Imaging}
    (self : CertificateGenerator) (w' : world) (name : pystr) (l : line)
    : Prop :=
  (l = PGenerated name ∧ certificate_file self w' name ∈ dom (files w'))
  ∨ ∃ msg, l = PErrorGenerating name msg.

Definition count_generated (ls : list line) : nat :=
  length (filter (λ l, is_generated l = true) ls).

Definition count_errors (ls : list line) : nat :=
  length (filter (λ l, is_error l = true) ls).

(** ** A small instance for closed examples *)

(** A picture is its size and the texts drawn on it; a font is its size;
    a glyph is half as wide as the font is tall. *)
Record sketch := Sketch { sk_size : Z * Z; sk_texts : list (Q * Q * pystr) }.

Definition sketch_imaging : Imaging := {|
  Image := sketch;
  FreeTypeFont := Z;
  image_size := sk_size;
  decode_font b size :=
    match b with
    | [] => Raise (Exn OSError (u "unknown file format"))
    | _ => Ok size
    end;
  decode_image b :=
    match b with
    | [w; h] => Ok (Sketch (Z.of_N w, Z.of_N h) [])
    | _ => Raise (Exn OSError (u "cannot identify image file"))
    end;
  textbbox xy text size :=
    Ok (xy.1, xy.2 + size / 5, xy.1 + size / 2 * Z.of_nat (length text),
        xy.2 + size)%Z;
  draw_text img xy text fill size :=
    Ok (Sketch (sk_size img) (sk_texts img ++ [(xy, text)]));
  encode format img :=
    Ok (format ++ [Z.to_N (sk_size img).1; Z.to_N (sk_size img).2])
|}.

Definition one_table : Tabular := {|
  parse_csv b :=
    Ok [(u "id", [u "1"; u "2"]);
        (u "full_name", [u "Alice Smith"; u "Bob"])]
|}.

Definition demo_cwd : path := [[]; u "work"].

(** A template of 1000 by 400 pixels, a font file and a table in the
    current directory. *)
Definition demo_world : world (I := sketch_imaging) := {|
  cwd := demo_cwd;
  files := {[ demo_cwd ++ [u "template.png"] := [1000; 400];
              demo_cwd ++ [u "font.ttf"] := [1];
              demo_cwd ++ config_csv_path := [1] ]};
  dirs := {[ [[]]; demo_cwd ]};
  denied := ∅;
  heap := ∅;
  stdout := [];
  calls := []
|}.

Definition demo_init :=
  __init__ (I := sketch_imaging) [u "template.png"] [u "font.ttf"] 100
    (u "#86529f") [u "certificates"] demo_world.

(** The generator and the world that construction leaves. *)
Definition demo_self : CertificateGenerator (I := sketch_imaging) :=
  match demo_init.1 with
  | Ok g => g
  | Raise _ =>
      @Build_CertificateGenerator sketch_imaging [] [] 0 [] [] 0%Z
        1%positive 0 0
  end.

Definition demo_ready : world (I := sketch_imaging) := demo_init.2.
(** ** What a render does to its file *)

(** The file of a certificate after a render: left alone, written with
    the encoded picture, or emptied if it was there. *)
Inductive file_effect :=
  | Untouched
  | Written (b : blob)
  | Truncated.

Definition apply_effect (e : file_effect) (q : path)
    (f : gmap path blob) : gmap path blob :=
  match e with
  | Untouched => f
  | Written b => <[q := b]> f
  | Truncated => if bool_decide (q ∈ dom f) then <[q := []]> f else f
  end.

(** Two worlds with the same current directory, directories, refusals and
    template picture. *)
Definition same_setting `{I : Imaging} (self : CertificateGenerator)
    (w1 w2 : world) : Prop :=
  cwd w2 = cwd w1 ∧ dirs w2 = dirs w1 ∧ denied w2 = denied w1
  ∧ heap w2 !! template self = heap w1 !! template self.

(** Where [_calculate_text_position] puts a text with the given box. *)
Definition centred `{I : Imaging} (self : CertificateGenerator)
    (box : bbox) : Q * Q :=
  let '(l, t, r, b) := box in
  ((inject_Z (width self - (r - l)) / 2)%Q,
   (inject_Z (height self - (b - t)) / 2 - 30)%Q).

(** What a render of [name] needs besides the output directory: the
    template object, a measure, a drawing and an encoding that go through,
    a stem that is not empty, and a file the OS lets it write. *)
Definition renderable `{U : Unicode} `{I : Imaging}
    (self : CertificateGenerator) (w : world) (name : pystr) : Prop :=
  ∃ img box img' bytes,
    heap w !! template self = Some img
    ∧ textbbox (0, 0)%Z name (font self) = Ok box
    ∧ draw_text img (centred self box) name (font_color self) (font self)
      = Ok img'
    ∧ encode (u "PNG") img' = Ok bytes
    ∧ safe_filename name ≠ []
    ∧ (certificate_file self w name ∉ dirs w)
    ∧ (certificate_file self w name ∉ denied w).

(** Tables for closed examples: one with a column [name], one whose
    column [name] has no row. *)
Definition names_table : Tabular := {|
  parse_csv b := Ok [(u "id", [u "1"; u "2"]);
                     (u "name", [u "Alice Smith"; u "Bob"])]
|}.

Definition empty_table : Tabular := {|
  parse_csv b := Ok [(u "id", []); (u "name", [])]
|}.

(** [demo_ready] once its output directory has been removed, and
    [demo_world] with a font file that holds nothing. *)
Definition demo_no_directory : world (I := sketch_imaging) :=
  set_dirs {[ [[]]; demo_cwd ]} demo_ready.

Definition demo_bad_font : world (I := sketch_imaging) :=
  set_files (<[demo_cwd ++ [u "font.ttf"] := []]> (files demo_world))
    demo_world.

(** * Properties *)

(** ** Stripping *)

Lemma lstrip_suffix s : lstrip s `suffix_of` s.
Proof.
  induction s as [|c s IH]; simpl; [done|].
  destruct (isspace c); [by apply suffix_cons_r | done].
Qed.

Lemma lstrip_head s c : head (lstrip s) = Some c → isspace c = false.
Proof.
  induction s as [|d s IH]; simpl; [done|].
  destruct (isspace d) eqn:E; [done|]. simpl. by intros [= <-].
Qed.

Lemma lstrip_elem s c : c ∈ lstrip s → c ∈ s.
Proof.
  intros Hc. destruct (lstrip_suffix s) as [k Hk].
  rewrite Hk. apply elem_of_app. by right.
Qed.

Lemma rstrip_elem s c : c ∈ rstrip s → c ∈ s.
Proof.
  unfold rstrip. rewrite elem_of_reverse. intros ?%lstrip_elem.
  by apply elem_of_reverse.
Qed.

Lemma rstrip_last s c : last (rstrip s) = Some c → isspace c = false.
Proof. unfold rstrip. rewrite last_reverse. apply lstrip_head. Qed.

(** Stripping on the right leaves a non-blank first character in place. *)
Lemma lstrip_snoc_keep t c :
  isspace c = false → ∃ k, lstrip (t ++ [c]) = k ++ [c].
Proof.
  intros Hc. induction t as [|e t IH]; simpl.
  - rewrite Hc. by exists [].
  - destruct (isspace e); [done|]. by exists (e :: t).
Qed.

Lemma strip_elem s c : c ∈ strip s → c ∈ s.
Proof. unfold strip. intros ?%rstrip_elem. by apply lstrip_elem. Qed.

Lemma rstrip_nonblank_head s d :
  head s = Some d → isspace d = false → head (rstrip s) = Some d.
Proof.
  destruct s as [|e s]; [done|]. intros [= ->] Hd.
  unfold rstrip. rewrite reverse_cons.
  destruct (lstrip_snoc_keep (reverse s) d Hd) as [k ->].
  by rewrite reverse_app.
Qed.

Lemma strip_head s c : head (strip s) = Some c → isspace c = false.
Proof.
  unfold strip. destruct (lstrip s) as [|d t] eqn:E; [done|].
  assert (isspace d = false) as Hd by (apply (lstrip_head s); by rewrite E).
  rewrite (rstrip_nonblank_head (d :: t) d eq_refl Hd). by intros [= <-].
Qed.

Lemma strip_last s c : last (strip s) = Some c → isspace c = false.
Proof. apply rstrip_last. Qed.

(** The stem keeps only characters that passed the filter. *)
Lemma safe_filename_keep `{U : Unicode} name c :
  c ∈ safe_filename name → keep_char c = true.
Proof.
  unfold safe_filename. intros Hc%strip_elem.
  by apply list_elem_of_filter in Hc as [? _].
Qed.


(** ** Extensions *)

Example splitext_ext_named : splitext_ext (u "OBrien Jr.png") = u ".png".
Proof. reflexivity. Qed.

Example splitext_ext_hidden : splitext_ext (u ".png") = [].
Proof. reflexivity. Qed.

Example splitext_ext_two_dots : splitext_ext (u "a..png") = u ".png".
Proof. reflexivity. Qed.

Lemma rfind_last c s t :
  rfind c t = None → rfind c (s ++ c :: t) = Some (length s).
Proof.
  intros Ht. induction s as [|d s IH]; simpl.
  - by rewrite Ht, N.eqb_refl.
  - by rewrite IH.
Qed.

(** A name that does not start with a dot keeps the extension appended
    to it. *)
Lemma splitext_ext_append c stem :
  c ≠ ch "." → splitext_ext ((c :: stem) ++ u ".png") = u ".png".
Proof.
  intros Hc. unfold splitext_ext.
  change (u ".png") with (ch "." :: u "png").
  rewrite rfind_last by done.
  rewrite take_app_length, drop_app_length.
  cbn [forallb]. apply N.eqb_neq in Hc. by rewrite Hc.
Qed.

(** With a stem that is not empty the file name ends in [.png], which
    Pillow knows. *)
Lemma output_filename_extension `{U : Unicode} name :
  safe_filename name ≠ [] →
  EXTENSION (lower (splitext_ext (output_filename name))) = Some (u "PNG").
Proof.
  intros Hstem. unfold output_filename.
  destruct (safe_filename name) as [|c stem] eqn:Hs; [done|].
  assert (c ≠ ch ".") as Hc.
  { intros ->. assert (keep_char (ch ".") = true) as Hk; [|done].
    apply (safe_filename_keep name). rewrite Hs. by left. }
  by rewrite (splitext_ext_append c stem Hc).
Qed.

Section Properties.
Context `{U : Unicode} `{I : Imaging} `{T : Tabular}.

(** ** One render *)

Lemma bind_run {A B} (m : M A) (k : A → M B) w :
  (m ≫= k) w
  = match m w with
    | (Ok a, w1) => k a w1
    | (Raise e, w1) => (Raise e, w1)
    end.
Proof. done. Qed.

Lemma extends_refl w : extends w w [].
Proof. repeat split; try done. by rewrite app_nil_r. Qed.

Lemma extends_trans w0 w1 w2 n1 n2 :
  extends w0 w1 n1 → extends w1 w2 n2 → extends w0 w2 (n1 ++ n2).
Proof.
  intros (?&?&?&?&?&?&?) (?&?&?&?&?&?&?).
  repeat split; try congruence; try (by etrans).
  rewrite app_assoc. congruence.
Qed.

Lemma extends_print w l : extends w (add_stdout l w) [l].
Proof. by repeat split. Qed.

Lemma Image_copy_run l w r w' :
  Image_copy l w = (r, w') →
  extends w w' []
  ∧ match r with
    | Ok l' => (l' ∉ dom (heap w)) ∧ is_Some (heap w !! l)
    | Raise _ => w' = w
    end.
Proof.
  unfold Image_copy, load, alloc. rewrite bind_run.
  destruct (heap w !! l) as [img|]; intros [= <- <-].
  - split.
    + repeat split; simpl; try done; [|by rewrite app_nil_r].
      apply insert_subseteq, not_elem_of_dom, is_fresh.
    + split; [apply is_fresh | by eexists].
  - split; [apply extends_refl | done].
Qed.

Lemma _calculate_text_position_run self draw text w r w' :
  _calculate_text_position self draw text w = (r, w') → w' = w.
Proof.
  unfold _calculate_text_position, lift. rewrite bind_run.
  destruct (textbbox _ _ _) as [[[[??]?]?]|]; by intros [= <- <-].
Qed.

Lemma ImageDraw_text_run l xy text fill fnt w r w' :
  ImageDraw_text l xy text fill fnt w = (r, w') →
  w' = w ∨ ∃ img, w' = set_heap (<[l := img]> (heap w)) w.
Proof.
  unfold ImageDraw_text, load, lift, store. rewrite bind_run.
  destruct (heap w !! l) as [img|]; [|intros [= <- <-]; by left].
  rewrite bind_run. destruct (draw_text _ _ _ _ _) as [img'|].
  - intros [= <- <-]. right. by eexists.
  - intros [= <- <-]. by left.
Qed.

Lemma set_files_insert_extends w q b :
  extends w (set_files (<[q := b]> (files w)) w) [].
Proof.
  repeat split; simpl; try done; [|by rewrite app_nil_r].
  rewrite dom_insert_L. set_solver.
Qed.

Lemma Image_save_run l p w r w' :
  Image_save l p w = (r, w') →
  extends w w' [] ∧ heap w' = heap w
  ∧ (r = Ok () → resolve w p ∈ dom (files w')).
Proof.
  unfold Image_save.
  destruct (EXTENSION _) as [format|];
    [|intros [= <- <-]; split; [apply extends_refl | done]].
  repeat case_match; intros [= <- <-];
    try (split; [apply extends_refl | done]).
  - split; [apply set_files_insert_extends|]. split; [done|].
    intros _. simpl. rewrite dom_insert_L. set_solver.
  - split; [apply set_files_insert_extends | done].
Qed.

(** [save] refuses a name in which it finds no known extension, and then
    leaves the world alone. *)
Lemma Image_save_unknown_extension l p w :
  EXTENSION (lower (splitext_ext (basename p))) = None →
  Image_save l p w
  = (Raise (Exn ValueError
              (u "unknown file extension: "
               ++ lower (splitext_ext (basename p)))), w).
Proof. unfold Image_save. by intros ->. Qed.

Lemma generate_certificate_spec self name w :
  ∃ r w' new,
    generate_certificate self name w = (Ok r, w')
    ∧ extends w w' [new]
    ∧ heap w' !! template self = heap w !! template self
    ∧ match r with
      | Some p =>
          p = path_div (output_dir self) (output_filename name)
          ∧ new = PGenerated name
          ∧ resolve w p ∈ dom (files w')
      | None => ∃ msg, new = PErrorGenerating name msg
      end.
Proof.
  unfold generate_certificate, try_except. rewrite bind_run.
  destruct (Image_copy _ w) as [[l|e] w1] eqn:Hcopy;
    apply Image_copy_run in Hcopy as [Hx1 Hl].
  2:{ subst w1. eexists None, _, _. split; [done|].
      split; [apply extends_print|]. split; [done|]. by eexists. }
  destruct Hl as [Hfresh [img Ht]].
  assert (heap w1 !! template self = Some img) as Ht1.
  { destruct Hx1 as (_&_&_&_&Hsub&_). by apply (lookup_weaken _ _ _ _ Ht Hsub). }
  rewrite bind_run.
  destruct (_calculate_text_position _ _ _ w1) as [[[x y]|e] w2] eqn:Hpos;
    apply _calculate_text_position_run in Hpos as ->.
  2:{ eexists None, _, _. split; [done|].
      split; [apply (extends_trans _ _ _ [] [_] Hx1), extends_print|].
      split; [by rewrite Ht|]. by eexists. }
  rewrite bind_run.
  destruct (ImageDraw_text _ _ _ _ _ w1) as [r3 w3] eqn:Hdraw.
  apply ImageDraw_text_run in Hdraw as Hw3.
  assert (extends w w3 [] ∧ heap w3 !! template self = Some img) as [Hx3 Ht3].
  { destruct Hw3 as [->|[img' ->]]; [done|].
    assert (l ≠ template self) as Hne.
    { intros ->. apply Hfresh, elem_of_dom. by eexists. }
    split; [|simpl; by rewrite lookup_insert_ne].
    destruct Hx1 as (?&?&?&?&?&?&?). repeat split; simpl; try done.
    apply insert_subseteq_r; [by apply not_elem_of_dom | done]. }
  destruct r3 as [[]|e].
  2:{ eexists None, _, _. split; [done|].
      split; [apply (extends_trans _ _ _ [] [_] Hx3), extends_print|].
      split; [by rewrite Ht|]. by eexists. }
  rewrite bind_run.
  destruct (Image_save _ _ w3) as [r4 w4] eqn:Hsave.
  apply Image_save_run in Hsave as (Hx4 & Hh4 & Hfile).
  pose proof (extends_trans _ _ _ _ _ Hx3 Hx4) as Hx. simpl in Hx.
  destruct r4 as [[]|e].
  - rewrite bind_run. simpl. eexists (Some _), _, _. split; [done|].
    split; [apply (extends_trans _ _ _ [] [_] Hx), extends_print|].
    split; [simpl; by rewrite Hh4, Ht|].
    split; [done|]. split; [done|]. simpl.
    destruct Hx3 as (Hcwd&_). unfold resolve in *. rewrite <-Hcwd. by apply Hfile.
  - eexists None, _, _. split; [done|].
    split; [apply (extends_trans _ _ _ [] [_] Hx), extends_print|].
    split; [simpl; by rewrite Hh4, Ht|]. by eexists.
Qed.

(** ** The batch *)

Lemma count_generated_cons l ls :
  count_generated (l :: ls)
  = ((if is_generated l then 1 else 0) + count_generated ls)%nat.
Proof.
  unfold count_generated. rewrite filter_cons.
  destruct (is_generated l); by case_decide.
Qed.

Lemma count_errors_cons l ls :
  count_errors (l :: ls)
  = ((if is_error l then 1 else 0) + count_errors ls)%nat.
Proof.
  unfold count_errors. rewrite filter_cons.
  destruct (is_error l); by case_decide.
Qed.

Lemma attempt_mono self w1 w2 new name l :
  extends w1 w2 new → attempt self w1 name l → attempt self w2 name l.
Proof.
  intros (Hcwd&_&_&_&_&Hdom&_) [[-> Hf]|[msg ->]]; [left|right; by eexists].
  split; [done|]. unfold certificate_file, resolve in *.
  rewrite Hcwd. by apply Hdom.
Qed.

Lemma batch_loop_spec self names successful failed w :
  ∃ statuses w',
    batch_loop self names successful failed w
    = (Ok ((successful + count_generated statuses)%nat,
           (failed + count_errors statuses)%nat), w')
    ∧ extends w w' statuses
    ∧ heap w' !! template self = heap w !! template self
    ∧ Forall2 (attempt self w') names statuses.
Proof.
  revert successful failed w.
  induction names as [|name rest IH]; intros successful failed w; simpl.
  - exists [], w. unfold count_generated, count_errors. simpl.
    rewrite !Nat.add_0_r. split; [done|]. split; [apply extends_refl|].
    split; [done | constructor].
  - rewrite bind_run.
    destruct (generate_certificate_spec self name w)
      as (r & w1 & new & -> & Hx1 & Ht1 & Hr).
    destruct r as [p|].
    + destruct Hr as (-> & -> & Hfile).
      destruct (IH (successful + 1)%nat failed w1)
        as (statuses & w' & -> & Hx & Ht & Hall).
      exists (PGenerated name :: statuses), w'.
      rewrite count_generated_cons, count_errors_cons. simpl.
      split; [do 3 f_equal; lia|].
      split; [apply (extends_trans _ _ _ [_] _ Hx1 Hx)|].
      split; [congruence|]. constructor; [|done].
      apply (attempt_mono _ w1 _ _ _ _ Hx). left. split; [done|].
      unfold certificate_file. destruct Hx1 as (Hcwd&_).
      unfold resolve in *. by rewrite Hcwd.
    + destruct Hr as [msg ->].
      destruct (IH successful (failed + 1)%nat w1)
        as (statuses & w' & -> & Hx & Ht & Hall).
      exists (PErrorGenerating name msg :: statuses), w'.
      rewrite count_generated_cons, count_errors_cons. simpl.
      split; [do 3 f_equal; lia|].
      split; [apply (extends_trans _ _ _ [_] _ Hx1 Hx)|].
      split; [congruence|]. constructor; [|done]. right. by eexists.
Qed.

Lemma counts_total self w' names statuses :
  Forall2 (attempt self w') names statuses →
  (count_generated statuses + count_errors statuses)%nat = length names.
Proof.
  induction 1 as [|name l names statuses Hl _ IH]; [done|].
  rewrite count_generated_cons, count_errors_cons. simpl.
  destruct Hl as [[-> _]|[msg ->]]; simpl; lia.
Qed.

Lemma generate_batch_spec self names w :
  ∃ statuses w',
    generate_batch self names w = (Ok (), w')
    ∧ extends w w'
        (batch_report (length names) statuses (count_generated statuses)
           (count_errors statuses) (resolve w (output_dir self)))
    ∧ heap w' !! template self = heap w !! template self
    ∧ Forall2 (attempt self w') names statuses.
Proof.
  unfold generate_batch. rewrite bind_run. unfold print at 1. cbn beta iota.
  rewrite bind_run. unfold print at 1. cbn beta iota. rewrite bind_run.
  destruct (batch_loop_spec self names 0 0
              (add_stdout PRule (add_stdout (PGenerating (length names)) w)))
    as (statuses & w1 & -> & Hx & Ht & Hall).
  unfold print, absolute. simpl. eexists statuses, _. split; [done|].
  destruct Hx as (Hcwd&?&?&?&?&?&Hout). simpl in *.
  split.
  - repeat split; simpl; try done. unfold batch_report, resolve. simpl.
    rewrite Hcwd, Hout. by rewrite <-!app_assoc.
  - split; [done|].
    eapply Forall2_impl; [done|]. intros name l [[-> Hf]|[msg ->]];
      [left|right; by eexists]. done.
Qed.

Lemma printed_since_extends w w' new :
  extends w w' new → printed_since w w' = new.
Proof.
  intros (_&_&_&_&_&_&Hout). unfold printed_since.
  by rewrite Hout, drop_app_length.
Qed.

(** ** Sanitization *)

(** C3: for every name the sanitized stem holds only alphanumeric
    characters, spaces, hyphens and underscores, and neither starts nor ends
    with whitespace; the name [O'Brien, Jr.!] gives the stem [OBrien Jr] and
    the file name [OBrien Jr.png]. *)
Theorem safe_filename_allowed_and_trimmed :
  (∀ name,
     Forall (λ c, isalnum c = true ∨ c = ch " " ∨ c = ch "-" ∨ c = ch "_")
       (safe_filename name)
     ∧ match head (safe_filename name) with
       | Some c => isspace c = false
       | None => True
       end
     ∧ match last (safe_filename name) with
       | Some c => isspace c = false
       | None => True
       end)
  ∧ safe_filename (u "O'Brien, Jr.!") = u "OBrien Jr"
  ∧ output_filename (u "O'Brien, Jr.!") = u "OBrien Jr.png".
Proof.
  split; [|split; reflexivity].
  intros name. split; [|split].
  - apply Forall_forall. intros c Hc%safe_filename_keep.
    unfold keep_char in Hc. apply orb_true_iff in Hc as [Hc|Hc]; [by left|].
    right. apply bool_decide_eq_true in Hc.
    rewrite !elem_of_cons, elem_of_nil in Hc.
    destruct Hc as [->|[->|[->|[]]]]; auto.
  - destruct (head (safe_filename name)) as [c|] eqn:Hh; [|done].
    by apply (strip_head _ _ Hh).
  - destruct (last (safe_filename name)) as [c|] eqn:Hl; [|done].
    by apply (strip_last _ _ Hl).
Qed.

(** ** Centring *)

Lemma inject_Z_sub a b : (inject_Z (a - b) == inject_Z a - inject_Z b)%Q.
Proof. unfold Z.sub. by rewrite inject_Z_plus, inject_Z_opp. Qed.

Lemma _calculate_text_position_value self draw text w l t r b :
  textbbox (0, 0)%Z text (font self) = Ok (l, t, r, b) →
  _calculate_text_position self draw text w
  = (Ok ((inject_Z (width self - (r - l)) / 2)%Q,
         (inject_Z (height self - (b - t)) / 2 - 30)%Q), w).
Proof.
  intros Hb. unfold _calculate_text_position, lift. rewrite bind_run.
  by rewrite Hb.
Qed.

(** C5: the position computed for a text is
    [x = (template_width - text_width) / 2] and
    [y = (template_height - text_height) / 2 - 30], the text's width and
    height being [right - left] and [bottom - top] of its bounding box
    measured at the origin in the configured font. *)
Theorem _calculate_text_position_centres self draw text w l t r b :
  textbbox (0, 0)%Z text (font self) = Ok (l, t, r, b) →
  ∃ x y,
    _calculate_text_position self draw text w = (Ok (x, y), w)
    ∧ (x == (inject_Z (width self) - inject_Z (r - l)) / 2)%Q
    ∧ (y == (inject_Z (height self) - inject_Z (b - t)) / 2 - 30)%Q.
Proof.
  intros Hb. eexists _, _.
  split; [by apply _calculate_text_position_value|].
  rewrite (inject_Z_sub (width self)), (inject_Z_sub (height self)).
  split; reflexivity.
Qed.

(** C6: a text no wider than the template gets [x ≥ 0] and
    [x + text_width ≤ template_width]; a wider text gets a negative [x],
    and the position is returned all the same. *)
Theorem text_fits_horizontally self draw text w l t r b :
  textbbox (0, 0)%Z text (font self) = Ok (l, t, r, b) →
  ∃ x y,
    _calculate_text_position self draw text w = (Ok (x, y), w)
    ∧ ((r - l ≤ width self)%Z →
       (0 <= x)%Q ∧ (x + inject_Z (r - l) <= inject_Z (width self))%Q)
    ∧ ((width self < r - l)%Z → (x < 0)%Q).
Proof.
  intros Hb. eexists _, _.
  split; [by apply _calculate_text_position_value|].
  rewrite (inject_Z_sub (width self)), Zle_Qle, Zlt_Qlt.
  generalize (inject_Z (width self)) (inject_Z (r - l)). intros W tw.
  unfold Qdiv. change (/ 2)%Q with (1 # 2)%Q.
  split; [intros Hle; split; lra | intros Hlt; lra].
Qed.

(** ** Construction *)

Lemma path_exists_cases w p :
  (absent w p ∧ path_exists p w = (Ok false, w))
  ∨ (¬ absent w p ∧ path_exists p w = (Ok true, w)).
Proof.
  unfold path_exists, absent.
  destruct (decide (resolve w p ∈ dom (files w))) as [Hf|Hf];
    [rewrite (bool_decide_eq_true_2 _ Hf); right; split; [tauto | done]|].
  destruct (decide (resolve w p ∈ dirs w)) as [Hd|Hd];
    [rewrite (bool_decide_eq_true_2 _ Hd), orb_true_r; right;
     split; [tauto | done]|].
  rewrite (bool_decide_eq_false_2 _ Hf), (bool_decide_eq_false_2 _ Hd).
  by left.
Qed.

Lemma path_exists_run w p : ∃ b, path_exists p w = (Ok b, w).
Proof. by eexists. Qed.

(** C7: when the template file or the font file does not exist,
    construction fails with [FileNotFoundError], the message naming the
    missing path, and the world is left as it was: no font or image was
    decoded, nothing was read or created. *)
Theorem __init___missing_resource tp fp size color out w :
  absent w tp ∨ absent w fp →
  ∃ msg,
    __init__ tp fp size color out w = (Raise (Exn FileNotFoundError msg), w)
    ∧ ((absent w tp ∧ msg = u "Template file not found: " ++ path_str tp)
       ∨ (absent w fp ∧ msg = u "Font file not found: " ++ path_str fp)).
Proof.
  intros Hmiss. unfold __init__, _validate_paths. rewrite !bind_run.
  destruct (path_exists_cases w tp) as [[Htp ->]|[Htp ->]]; simpl.
  - eexists. split; [done|]. by left.
  - destruct Hmiss as [?|Hfp]; [done|]. rewrite bind_run.
    destruct (path_exists_cases w fp) as [[_ ->]|[? _]]; [|done]. simpl.
    eexists. split; [done|]. by right.
Qed.

(** ** Reading the names *)

Lemma read_csv_run csv_path w b df :
  files w !! resolve w csv_path = Some b →
  parse_csv b = Ok df →
  read_csv csv_path w = (Ok df, add_call (CallReadCsv csv_path) w).
Proof.
  intros Hb Hdf. unfold read_csv, read_file, lift. rewrite !bind_run.
  simpl. unfold resolve in *. simpl. by rewrite Hb, Hdf.
Qed.

Lemma read_names_missing_column csv_path name_column w b df :
  files w !! resolve w csv_path = Some b →
  parse_csv b = Ok df →
  name_column ∉ columns df →
  read_names_from_csv csv_path name_column w
  = (Raise (Exn Exception (missing_column_message name_column df)),
     add_call (CallReadCsv csv_path) w).
Proof.
  intros Hb Hdf Hcol. unfold read_names_from_csv, try_except.
  rewrite bind_run, (read_csv_run _ _ _ _ Hb Hdf).
  by rewrite (bool_decide_eq_true_2 _ Hcol).
Qed.

(** C8: when the requested column is not among the columns of the table,
    reading the names raises an error whose message names the column and
    lists the columns there are; in [main] this ends the run before a
    generator is built: no font or image is decoded, no image object or
    file is made, no certificate is reported. *)
Theorem read_names_missing_column_error :
  (∀ csv_path name_column w b df,
     files w !! resolve w csv_path = Some b →
     parse_csv b = Ok df →
     name_column ∉ columns df →
     read_names_from_csv csv_path name_column w
     = (Raise (Exn Exception
                 (u "Error reading CSV file: " ++ u "Column '" ++ name_column
                  ++ u "' not found in CSV file. Available columns: "
                  ++ join (u ", ") (columns df))),
        add_call (CallReadCsv csv_path) w))
  ∧ (∀ w b df,
       files w !! resolve w config_csv_path = Some b →
       parse_csv b = Ok df →
       u "name" ∉ columns df →
       ∃ w',
         main w = (Ok (), w')
         ∧ files w' = files w ∧ dirs w' = dirs w ∧ heap w' = heap w
         ∧ calls w'
           = calls w ++ [CallReadCsv config_csv_path;
                         CallReadCsv config_csv_path]
         ∧ Forall (λ l, status_of l = None) (printed_since w w')
         ∧ last (stdout w')
           = Some (PError (missing_column_message (u "name") df))).
Proof.
  split; [apply read_names_missing_column|].
  intros w b df Hb Hdf Hcol. unfold main, try_except.
  rewrite bind_run. cbn beta iota.
  do 2 (rewrite bind_run; unfold print at 1; cbn beta iota).
  do 3 (rewrite bind_run;
        match goal with
        | |- context [path_exists ?p ?w0] =>
            destruct (path_exists_run w0 p) as [? ->]
        end;
        rewrite bind_run; unfold print at 1; cbn beta iota).
  rewrite bind_run; unfold print at 1; cbn beta iota.
  rewrite bind_run.
  match goal with
  | |- context [read_csv ?p ?w0] =>
      rewrite (read_csv_run p w0 b df Hb Hdf)
  end.
  rewrite bind_run; unfold print at 1; cbn beta iota.
  rewrite bind_run.
  match goal with
  | |- context [read_names_from_csv ?p ?c ?w0] =>
      rewrite (read_names_missing_column p c w0 b df Hb Hdf Hcol)
  end.
  eexists. split; [done|]. simpl. repeat split; try done.
  - by rewrite <-app_assoc.
  - unfold printed_since. simpl. rewrite <-!app_assoc, drop_app_length.
    by repeat constructor.
  - by rewrite last_snoc.
Qed.

(** ** The template is not drawn on *)

Lemma mkdir_each_heap qs w r w' :
  mkdir_each qs w = (r, w') → heap w' = heap w.
Proof.
  revert w. induction qs as [|q qs IH]; intros w; simpl.
  - by intros [= <- <-].
  - repeat case_bool_decide; try (by intros [= <- <-]); [apply IH|].
    intros Hrun. by apply IH in Hrun.
Qed.

Lemma _validate_paths_run tp fp w r w' :
  _validate_paths tp fp w = (r, w') → w' = w.
Proof.
  unfold _validate_paths. rewrite bind_run.
  destruct (path_exists_run w tp) as [[] ->]; simpl; [|by intros [= <- <-]].
  rewrite bind_run. destruct (path_exists_run w fp) as [[] ->]; simpl;
    by intros [= <- <-].
Qed.

Lemma ImageFont_truetype_run p size w r w' :
  ImageFont_truetype p size w = (r, w') →
  w' = add_call (CallTruetype p size) w.
Proof.
  unfold ImageFont_truetype, read_file, lift. rewrite !bind_run. simpl.
  destruct (files w !! _) as [b|]; [|by intros [= <- <-]].
  destruct (decode_font b size); by intros [= <- <-].
Qed.

Lemma Image_open_run p w l w' :
  Image_open p w = (Ok l, w') →
  ∃ b img,
    files w !! resolve w p = Some b
    ∧ decode_image b = Ok img
    ∧ heap w' !! l = Some img.
Proof.
  unfold Image_open, read_file, lift, alloc. rewrite !bind_run. simpl.
  unfold resolve. simpl. fold (resolve w p).
  destruct (files w !! resolve w p) as [b|]; [|done].
  destruct (decode_image b) as [img|] eqn:Himg; [|done].
  intros [= <- <-]. exists b, img. simpl. by rewrite lookup_insert_eq.
Qed.

Lemma load_run l w r w' :
  load l w = (r, w') →
  w' = w ∧ match r with Ok img => heap w !! l = Some img | Raise _ => True end.
Proof.
  unfold load. destruct (heap w !! l); by intros [= <- <-].
Qed.

Lemma __init___template tp fp size color out w0 self w :
  __init__ tp fp size color out w0 = (Ok self, w) →
  ∃ b img,
    files w0 !! resolve w0 tp = Some b
    ∧ decode_image b = Ok img
    ∧ heap w !! template self = Some img
    ∧ image_size img = (width self, height self).
Proof.
  unfold __init__. rewrite bind_run.
  destruct (_validate_paths tp fp w0) as [[[]|e] w1] eqn:Hv; [|done].
  apply _validate_paths_run in Hv as ->.
  rewrite bind_run.
  destruct (ImageFont_truetype fp size w0) as [[fnt|e] w1] eqn:Hf; [|done].
  apply ImageFont_truetype_run in Hf as ->.
  rewrite bind_run.
  destruct (Image_open tp _) as [[l|e] w2] eqn:Ho; [|done].
  apply Image_open_run in Ho as (b & img & Hb & Himg & Hl).
  rewrite bind_run.
  destruct (load l w2) as [[img'|e] w3] eqn:Hload; [|done].
  apply load_run in Hload as [-> Hl']. rewrite Hl in Hl'.
  injection Hl' as <-.
  rewrite bind_run.
  destruct (mkdir out w2) as [[[]|e] w3] eqn:Hmk; [|done].
  apply mkdir_each_heap in Hmk.
  intros [= <- <-]. simpl. exists b, img. rewrite Hmk.
  repeat split; try done. by destruct (image_size img).
Qed.

Lemma generate_certificate_heap self name w :
  heap w ⊆ heap (generate_certificate self name w).2
  ∧ heap (generate_certificate self name w).2 !! template self
    = heap w !! template self.
Proof.
  destruct (generate_certificate_spec self name w)
    as (r & w' & new & -> & (_&_&_&_&Hsub&_) & Ht & _).
  done.
Qed.

Lemma generate_batch_heap self names w :
  heap w ⊆ heap (generate_batch self names w).2
  ∧ heap (generate_batch self names w).2 !! template self
    = heap w !! template self.
Proof.
  destruct (generate_batch_spec self names w)
    as (statuses & w' & -> & (_&_&_&_&Hsub&_) & Ht & _).
  done.
Qed.

(** C9: a render draws on a copy: every image object there was before
    the call, the template among them, holds the same picture after it,
    for one render and for a whole batch; the template that construction
    loaded, of the recorded width and height, is the one every later render
    finds. *)
Theorem renders_keep_template :
  (∀ self name w,
     heap w ⊆ heap (generate_certificate self name w).2
     ∧ heap (generate_certificate self name w).2 !! template self
       = heap w !! template self)
  ∧ (∀ self names w,
       heap w ⊆ heap (generate_batch self names w).2
       ∧ heap (generate_batch self names w).2 !! template self
         = heap w !! template self)
  ∧ (∀ tp fp size color out w0 self w,
       __init__ tp fp size color out w0 = (Ok self, w) →
       ∃ img,
         heap w !! template self = Some img
         ∧ image_size img = (width self, height self)
         ∧ ∀ names,
             heap (generate_batch self names w).2 !! template self
             = Some img).
Proof.
  split; [apply generate_certificate_heap|].
  split; [apply generate_batch_heap|].
  intros tp fp size color out w0 self w Hinit.
  destruct (__init___template _ _ _ _ _ _ _ _ Hinit)
    as (b & img & _ & _ & Ht & Hsize).
  exists img. repeat split; try done.
  intros names. by rewrite (proj2 (generate_batch_heap self names w)).
Qed.

(** ** The batch report *)

Lemma count_errors_report n statuses successful failed d :
  count_errors (batch_report n statuses successful failed d)
  = count_errors statuses.
Proof.
  assert (∀ l1 l2,
            count_errors (l1 ++ l2) = (count_errors l1 + count_errors l2)%nat)
    as Happ.
  { intros l1 l2. unfold count_errors. by rewrite filter_app, length_app. }
  assert (count_errors [] = 0%nat) as Hnil by done.
  unfold batch_report.
  rewrite !Happ, !count_errors_cons, Hnil. simpl. lia.
Qed.

(** C10: [generate_batch] renders each name of the list once, in the order
    of the list: its report holds one status line per name, in that order,
    and the tallies it prints add up to the length of the list. *)
Theorem generate_batch_one_attempt_per_name self names w :
  ∃ statuses w',
    generate_batch self names w = (Ok (), w')
    ∧ printed_since w w'
      = batch_report (length names) statuses (count_generated statuses)
          (count_errors statuses) (resolve w (output_dir self))
    ∧ Forall2 (attempt self w') names statuses
    ∧ length statuses = length names
    ∧ (count_generated statuses + count_errors statuses)%nat = length names.
Proof.
  destruct (generate_batch_spec self names w)
    as (statuses & w' & Hrun & Hx & _ & Hall).
  exists statuses, w'. split; [done|].
  split; [by apply printed_since_extends|]. split; [done|].
  split; [symmetry; by eapply Forall2_length|].
  by eapply counts_total.
Qed.

(** C4: when exactly one render of a batch of N names fails, the batch
    still renders every name: the report holds a status line for each
    name, each name but the failing one has its file in place at the end,
    and the tallies printed are N-1 successes and 1 failure. *)
Theorem one_failure_does_not_stop_the_batch self names w :
  count_errors (printed_since w (generate_batch self names w).2) = 1%nat →
  ∃ statuses w',
    generate_batch self names w = (Ok (), w')
    ∧ printed_since w w'
      = batch_report (length names) statuses (length names - 1) 1
          (resolve w (output_dir self))
    ∧ Forall2 (attempt self w') names statuses
    ∧ count_errors statuses = 1%nat
    ∧ count_generated statuses = (length names - 1)%nat.
Proof.
  destruct (generate_batch_spec self names w)
    as (statuses & w' & Hrun & Hx & _ & Hall).
  rewrite Hrun. simpl. rewrite (printed_since_extends _ _ _ Hx).
  rewrite count_errors_report. intros Hone.
  pose proof (counts_total _ _ _ _ Hall) as Htotal.
  assert (count_generated statuses = (length names - 1)%nat) as Hgen by lia.
  exists statuses, w'. split; [done|].
  split; [by rewrite (printed_since_extends _ _ _ Hx), Hgen, Hone|]. done.
Qed.

(** C1, as the code has it: [generate_batch] answers [None] for every
    list of names and raises nothing; the count of succeeded renders, the
    count of failed renders and the absolute output directory are the last
    lines it prints.  For the empty list the counts printed are 0 and 0
    and no file, directory or image object is touched. *)
Theorem generate_batch_reports_counts self names w :
  (∃ statuses w',
     generate_batch self names w = (Ok (), w')
     ∧ printed_since w w'
       = batch_report (length names) statuses (count_generated statuses)
           (count_errors statuses) (resolve w (output_dir self))
     ∧ Forall2 (attempt self w') names statuses)
  ∧ (∃ w',
       generate_batch self [] w = (Ok (), w')
       ∧ printed_since w w'
         = batch_report 0 [] 0 0 (resolve w (output_dir self))
       ∧ files w' = files w ∧ dirs w' = dirs w ∧ heap w' = heap w).
Proof.
  split.
  - destruct (generate_batch_spec self names w)
      as (statuses & w' & Hrun & Hx & _ & Hall).
    exists statuses, w'. split; [done|].
    split; [by apply printed_since_extends | done].
  - eexists. split; [reflexivity|]. simpl. repeat split; try done.
    unfold printed_since. simpl. by rewrite <-!app_assoc, drop_app_length.
Qed.

(** ** The empty stem *)

Lemma empty_stem_filename name :
  safe_filename name = [] → output_filename name = u ".png".
Proof. unfold output_filename. by intros ->. Qed.

Lemma Image_save_dot_png l out w :
  Image_save l (path_div out (u ".png")) w
  = (Raise (Exn ValueError (u "unknown file extension: ")), w).
Proof.
  rewrite Image_save_unknown_extension;
    unfold basename, path_div; rewrite last_snoc; [|done].
  by rewrite app_nil_r.
Qed.

Lemma Image_copy_value l w :
  Image_copy l w
  = match heap w !! l with
    | Some img =>
        (Ok (fresh (dom (heap w))),
         set_heap (<[fresh (dom (heap w)) := img]> (heap w)) w)
    | None => (Raise (Exn LibraryError []), w)
    end.
Proof.
  unfold Image_copy, load, alloc. rewrite bind_run.
  by destruct (heap w !! l).
Qed.

Lemma ImageDraw_text_value l xy text fill fnt w img :
  heap w !! l = Some img →
  ImageDraw_text l xy text fill fnt w
  = match draw_text img xy text fill fnt with
    | Ok img' => (Ok (), set_heap (<[l := img']> (heap w)) w)
    | Raise e => (Raise e, w)
    end.
Proof.
  intros Hl. unfold ImageDraw_text, load, lift, store.
  rewrite bind_run, Hl, bind_run.
  by destruct (draw_text _ _ _ _ _).
Qed.

Lemma _calculate_text_position_raise self draw text w e :
  textbbox (0, 0)%Z text (font self) = Raise e →
  _calculate_text_position self draw text w = (Raise e, w).
Proof.
  intros Hb. unfold _calculate_text_position, lift. rewrite bind_run.
  by rewrite Hb.
Qed.

(** C2, as the code has it: a name whose sanitized stem is empty is not
    set apart: the render goes on with the file name [.png]; Pillow's
    [save] finds no extension in that name and raises, so the render
    answers [None], prints an error line and leaves the files as they
    were.  When copying, measuring and drawing went through, the error
    printed is [save]'s. *)
Theorem empty_stem_ends_in_save_error self name w :
  safe_filename name = [] →
  output_filename name = u ".png"
  ∧ ∃ w' msg,
      generate_certificate self name w = (Ok None, w')
      ∧ printed_since w w' = [PErrorGenerating name msg]
      ∧ files w' = files w
      ∧ ∀ img l t r b img',
          heap w !! template self = Some img →
          textbbox (0, 0)%Z name (font self) = Ok (l, t, r, b) →
          draw_text img
            ((inject_Z (width self - (r - l)) / 2)%Q,
             (inject_Z (height self - (b - t)) / 2 - 30)%Q)
            name (font_color self) (font self) = Ok img' →
          msg = u "unknown file extension: ".
Proof.
  intros Hstem. split; [by apply empty_stem_filename|].
  unfold generate_certificate, try_except.
  rewrite (empty_stem_filename _ Hstem), bind_run, Image_copy_value.
  assert (∀ w1 m, stdout w1 = stdout w →
            printed_since w (add_stdout (PErrorGenerating name m) w1)
            = [PErrorGenerating name m]) as Hprint.
  { intros w1 m Hout. unfold printed_since. simpl.
    by rewrite Hout, drop_app_length. }
  destruct (heap w !! template self) as [img|] eqn:Ht.
  2:{ eexists _, _. split; [done|]. split; [by apply Hprint|]. done. }
  rewrite bind_run.
  destruct (textbbox (0, 0)%Z name (font self)) as [[[[l t] r] b]|e] eqn:Hb.
  2:{ rewrite (_calculate_text_position_raise _ _ _ _ _ Hb).
      eexists _, _. split; [done|]. split; [by apply Hprint|]. done. }
  rewrite (_calculate_text_position_value _ _ _ _ _ _ _ _ Hb).
  rewrite bind_run, (ImageDraw_text_value _ _ _ _ _ _ img);
    [|simpl; by rewrite lookup_insert_eq].
  destruct (draw_text img _ name _ _) as [img'|e] eqn:Hd.
  - rewrite bind_run, Image_save_dot_png.
    eexists _, _. split; [done|]. split; [by apply Hprint|].
    split; [done|]. done.
  - eexists _, _. split; [done|]. split; [by apply Hprint|].
    split; [done|]. intros ?????? [= <-] [= <- <- <- <-] Hd'. congruence.
Qed.

End Properties.

(** * Closed instances *)

(** Every example runs on [demo_ready], the world left by constructing
    [demo_self] over a template of 1000 by 400 pixels with a font of size
    100, with the ASCII character table. *)

Ltac by_evaluation := vm_compute; reflexivity.

Lemma _calculate_text_position_centres_witness :
  textbbox (Imaging := sketch_imaging) (0, 0)%Z (u "Alice Smith")
    (font demo_self) = Ok (0, 20, 550, 100)%Z
  ∧ ∃ x y,
      _calculate_text_position demo_self 2%positive (u "Alice Smith")
        demo_ready = (Ok (x, y), demo_ready)
      ∧ (x == (inject_Z (width demo_self) - inject_Z (550 - 0)) / 2)%Q
      ∧ (y == (inject_Z (height demo_self) - inject_Z (100 - 20)) / 2 - 30)%Q.
Proof.
  split; [by_evaluation|].
  apply (_calculate_text_position_centres (I := sketch_imaging) demo_self
           2%positive (u "Alice Smith") demo_ready 0 20 550 100).
  by_evaluation.
Defined.

Lemma text_fits_horizontally_witness :
  (∃ x y,
     _calculate_text_position (I := sketch_imaging) demo_self 2%positive
       (u "Alice Smith") demo_ready = (Ok (x, y), demo_ready)
     ∧ (0 <= x)%Q ∧ (x + 550 <= 1000)%Q)
  ∧ (∃ x y,
       _calculate_text_position (I := sketch_imaging) demo_self 2%positive
         (u "Hubert Blaine Wolfeschlegelsteinhausenbergerdorff") demo_ready
       = (Ok (x, y), demo_ready)
       ∧ (x < 0)%Q).
Proof.
  split.
  - destruct (text_fits_horizontally (I := sketch_imaging) demo_self
                2%positive (u "Alice Smith") demo_ready 0 20 550 100)
      as (x & y & Hrun & Hfit & _); [by_evaluation|].
    exists x, y. split; [exact Hrun|]. apply Hfit. vm_compute. discriminate.
  - destruct (text_fits_horizontally (I := sketch_imaging) demo_self
                2%positive
                (u "Hubert Blaine Wolfeschlegelsteinhausenbergerdorff")
                demo_ready 0 20 2450 100)
      as (x & y & Hrun & _ & Hover); [by_evaluation|].
    exists x, y. split; [exact Hrun|]. apply Hover. by_evaluation.
Defined.

Ltac by_decision := refine (bool_decide_unpack _ _); vm_compute; exact I.

Lemma __init___missing_resource_witness :
  absent demo_world [u "missing.png"]
  ∧ ∃ msg,
      __init__ (I := sketch_imaging) [u "missing.png"] [u "font.ttf"] 100
        (u "#86529f") [u "certificates"] demo_world
      = (Raise (Exn FileNotFoundError msg), demo_world)
      ∧ ((absent demo_world [u "missing.png"]
          ∧ msg = u "Template file not found: " ++ path_str [u "missing.png"])
         ∨ (absent demo_world [u "font.ttf"]
            ∧ msg = u "Font file not found: " ++ path_str [u "font.ttf"])).
Proof.
  assert (absent demo_world [u "missing.png"]) as Habsent.
  { split; by_decision. }
  split; [exact Habsent|].
  apply (__init___missing_resource (I := sketch_imaging)). left. exact Habsent.
Defined.

Lemma read_names_missing_column_error_witness :
  read_names_from_csv (I := sketch_imaging) (T := one_table) config_csv_path
    (u "name") demo_world
  = (Raise (Exn Exception
              (u "Error reading CSV file: Column 'name' not found in CSV file. Available columns: id, full_name")),
     add_call (CallReadCsv config_csv_path) demo_world)
  ∧ ∃ w',
      main (U := ascii_only) (T := one_table) demo_world = (Ok (), w')
      ∧ files w' = files demo_world
      ∧ Forall (λ l, status_of l = None) (printed_since demo_world w').
Proof.
  pose proof (read_names_missing_column_error (U := ascii_only)
                (I := sketch_imaging) (T := one_table)) as [Hread Hmain].
  assert (files demo_world !! resolve demo_world config_csv_path = Some [1])
    as Hfile by by_evaluation.
  assert (parse_csv (Tabular := one_table) [1]
          = Ok [(u "id", [u "1"; u "2"]);
                (u "full_name", [u "Alice Smith"; u "Bob"])])
    as Hparse by reflexivity.
  assert (u "name" ∉ columns [(u "id", [u "1"; u "2"]);
                              (u "full_name", [u "Alice Smith"; u "Bob"])])
    as Hcol by by_decision.
  split.
  - exact (Hread config_csv_path (u "name") demo_world _ _ Hfile Hparse Hcol).
  - destruct (Hmain demo_world _ _ Hfile Hparse Hcol)
      as (w' & Hrun & Hfiles & _ & _ & _ & Hquiet & _).
    exists w'. split; [exact Hrun|]. split; [exact Hfiles | exact Hquiet].
Defined.

Lemma renders_keep_template_witness :
  __init__ (I := sketch_imaging) [u "template.png"] [u "font.ttf"] 100
    (u "#86529f") [u "certificates"] demo_world = (Ok demo_self, demo_ready)
  ∧ ∃ img,
      heap demo_ready !! template demo_self = Some img
      ∧ image_size img = (1000, 400)%Z
      ∧ ∀ names,
          heap (generate_batch (U := ascii_only) demo_self names
                  demo_ready).2 !! template demo_self = Some img.
Proof.
  assert (__init__ (I := sketch_imaging) [u "template.png"] [u "font.ttf"]
            100 (u "#86529f") [u "certificates"] demo_world
          = (Ok demo_self, demo_ready)) as Hinit by by_evaluation.
  split; [exact Hinit|].
  destruct (renders_keep_template (U := ascii_only) (I := sketch_imaging))
    as (_ & _ & Hbuilt).
  exact (Hbuilt _ _ _ _ _ _ _ _ Hinit).
Defined.

Lemma one_failure_does_not_stop_the_batch_witness :
  ∃ statuses w',
    generate_batch (U := ascii_only) demo_self
      [u "Alice Smith"; u "!!!"; u "Bob"] demo_ready = (Ok (), w')
    ∧ printed_since demo_ready w'
      = batch_report 3 statuses 2 1 (resolve demo_ready (output_dir demo_self))
    ∧ Forall2 (attempt (U := ascii_only) demo_self w')
        [u "Alice Smith"; u "!!!"; u "Bob"] statuses
    ∧ count_errors statuses = 1%nat
    ∧ count_generated statuses = 2%nat.
Proof.
  apply (one_failure_does_not_stop_the_batch (U := ascii_only)
           (I := sketch_imaging) demo_self
           [u "Alice Smith"; u "!!!"; u "Bob"] demo_ready).
  by_evaluation.
Defined.

Lemma empty_stem_ends_in_save_error_witness :
  safe_filename (U := ascii_only) (u "!!!") = []
  ∧ ∃ w' msg,
      generate_certificate (U := ascii_only) demo_self (u "!!!") demo_ready
      = (Ok None, w')
      ∧ printed_since demo_ready w' = [PErrorGenerating (u "!!!") msg]
      ∧ files w' = files demo_ready.
Proof.
  split; [reflexivity|].
  destruct (empty_stem_ends_in_save_error (U := ascii_only)
              (I := sketch_imaging) demo_self (u "!!!") demo_ready eq_refl)
    as (_ & w' & msg & Hrun & Hprint & Hfiles & _).
  exists w', msg. split; [exact Hrun|]. split; [exact Hprint | exact Hfiles].
Defined.

(** The name [!!!] keeps no character.  Its render reaches [save] with the
    file name [.png], is refused there, answers [None], and no file [.png]
    is in the output directory afterwards. *)
Lemma empty_stem_render_fails :
  safe_filename (U := ascii_only) (u "!!!") = []
  ∧ (generate_certificate (U := ascii_only) demo_self (u "!!!")
       demo_ready).1 = Ok None
  ∧ printed_since demo_ready
      (generate_certificate (U := ascii_only) demo_self (u "!!!")
         demo_ready).2
    = [PErrorGenerating (u "!!!") (u "unknown file extension: ")]
  ∧ files
      (generate_certificate (U := ascii_only) demo_self (u "!!!")
         demo_ready).2
    !! (demo_cwd ++ [u "certificates"; u ".png"]) = None.
Proof. repeat split; by_evaluation. Qed.

(** The answer of [generate_batch] is the same [None] for a batch with no
    success and for a batch with one: it carries no count. *)
Lemma generate_batch_answer_carries_no_count :
  (generate_batch (U := ascii_only) demo_self [] demo_ready).1 = Ok ()
  ∧ (generate_batch (U := ascii_only) demo_self [u "Alice Smith"]
       demo_ready).1 = Ok ()
  ∧ count_generated
      (printed_since demo_ready
         (generate_batch (U := ascii_only) demo_self [] demo_ready).2)
    = 0%nat
  ∧ count_generated
      (printed_since demo_ready
         (generate_batch (U := ascii_only) demo_self [u "Alice Smith"]
            demo_ready).2)
    = 1%nat.
Proof. repeat split; by_evaluation. Qed.

(** * Further properties *)

(** ** Sanitized names *)

Lemma lstrip_id s :
  match head s with Some c => isspace c = false | None => True end →
  lstrip s = s.
Proof. destruct s as [|c s]; simpl; [done|]. by intros ->. Qed.

Lemma rstrip_id s :
  match last s with Some c => isspace c = false | None => True end →
  rstrip s = s.
Proof.
  intros Hl. unfold rstrip. rewrite lstrip_id; [apply reverse_involutive|].
  by rewrite head_reverse.
Qed.

Lemma strip_id s :
  match head s with Some c => isspace c = false | None => True end →
  match last s with Some c => isspace c = false | None => True end →
  strip s = s.
Proof. intros Hh Hl. unfold strip. by rewrite (lstrip_id s Hh), rstrip_id. Qed.

Lemma filter_keep_id `{U : Unicode} s :
  Forall (λ c, keep_char c = true) s →
  filter (λ c, keep_char c = true) s = s.
Proof.
  induction 1 as [|c s Hc _ IH]; [done|].
  by rewrite filter_cons_True, IH.
Qed.

(** X1: a name made of kept characters only, with no whitespace at either
    end, is its own file stem. *)
Theorem safe_filename_fixes_clean_names `{U : Unicode} name :
  Forall (λ c, keep_char c = true) name →
  match head name with Some c => isspace c = false | None => True end →
  match last name with Some c => isspace c = false | None => True end →
  safe_filename name = name.
Proof.
  intros Hkeep Hh Hl. unfold safe_filename.
  rewrite (filter_keep_id name Hkeep). by apply strip_id.
Qed.

(** X2: sanitizing is idempotent: the stem of a stem is that stem. *)
Theorem safe_filename_idempotent `{U : Unicode} name :
  safe_filename (safe_filename name) = safe_filename name.
Proof.
  unfold safe_filename at 1. rewrite filter_keep_id.
  - apply strip_id.
    + destruct (head (safe_filename name)) as [c|] eqn:Hh; [|done].
      by apply (strip_head _ _ Hh).
    + destruct (last (safe_filename name)) as [c|] eqn:Hl; [|done].
      by apply (strip_last _ _ Hl).
  - apply Forall_forall. intros c. apply safe_filename_keep.
Qed.

(** X3: the file name of a certificate holds no slash, backslash, colon
    or NUL, and is not empty: whatever the name, the certificate is a file
    directly inside the output directory. *)
Theorem output_filename_is_one_component `{U : Unicode} out name :
  Forall (λ c, c ≠ ch "/" ∧ c ≠ 92 ∧ c ≠ ch ":" ∧ c ≠ 0)
    (output_filename name)
  ∧ output_filename name ≠ []
  ∧ parent (path_div out (output_filename name)) = out
  ∧ basename (path_div out (output_filename name)) = output_filename name.
Proof.
  split; [|split; [|split]].
  - unfold output_filename. apply Forall_app. split.
    + apply Forall_forall. intros c Hc%safe_filename_keep.
      repeat split; intros ->; vm_compute in Hc; discriminate.
    + repeat constructor; discriminate.
  - unfold output_filename. by destruct (safe_filename name).
  - unfold parent, path_div. apply removelast_last.
  - unfold basename, path_div. by rewrite last_snoc.
Qed.

Section Further.
Context `{U : Unicode} `{I : Imaging} `{T : Tabular}.

(** ** Margins *)


(** ** One render, step by step *)

Lemma generate_certificate_unfold self name w :
  generate_certificate self name w
  = match heap w !! template self with
    | None => (Ok None, add_stdout (PErrorGenerating name []) w)
    | Some img =>
        let l := fresh (dom (heap w)) in
        let w1 := set_heap (<[l := img]> (heap w)) w in
        match textbbox (0, 0)%Z name (font self) with
        | Raise e => (Ok None, add_stdout (PErrorGenerating name (exn_msg e)) w1)
        | Ok box =>
            match draw_text img (centred self box) name (font_color self)
                    (font self) with
            | Raise e =>
                (Ok None, add_stdout (PErrorGenerating name (exn_msg e)) w1)
            | Ok img' =>
                match Image_save l
                        (path_div (output_dir self) (output_filename name))
                        (set_heap (<[l := img']> (heap w1)) w1) with
                | (Ok _, w4) =>
                    (Ok (Some (path_div (output_dir self)
                                 (output_filename name))),
                     add_stdout (PGenerated name) w4)
                | (Raise e, w4) =>
                    (Ok None,
                     add_stdout (PErrorGenerating name (exn_msg e)) w4)
                end
            end
        end
    end.
Proof.
  unfold generate_certificate, try_except.
  rewrite bind_run, Image_copy_value.
  destruct (heap w !! template self) as [img|] eqn:Ht; [|done].
  rewrite bind_run. cbn zeta.
  destruct (textbbox (0, 0)%Z name (font self)) as [[[[l t] r] b]|e] eqn:Hb.
  2:{ by rewrite (_calculate_text_position_raise _ _ _ _ _ Hb). }
  rewrite (_calculate_text_position_value _ _ _ _ _ _ _ _ Hb).
  rewrite bind_run, (ImageDraw_text_value _ _ _ _ _ _ img);
    [|simpl; by rewrite lookup_insert_eq].
  unfold centred.
  destruct (draw_text img _ name _ _) as [img'|e] eqn:Hd; [|done].
  rewrite bind_run.
  destruct (Image_save _ _ _) as [[[]|e] w4]; [|done].
  by rewrite bind_run.
Qed.

Lemma resolve_same_cwd w w2 p : cwd w2 = cwd w → resolve w2 p = resolve w p.
Proof. unfold resolve. by intros ->. Qed.

Lemma parent_resolve_path_div w out f :
  f ≠ [] → parent (resolve w (path_div out f)) = resolve w out.
Proof.
  intros Hf. unfold resolve, path_div, is_absolute, parent.
  destruct out as [|o os].
  - simpl. rewrite bool_decide_eq_false_2 by congruence.
    by rewrite removelast_last, app_nil_r.
  - change (head ((o :: os) ++ [f])) with (head (o :: os)).
    case_bool_decide.
    + by rewrite (removelast_last (o :: os)).
    + by rewrite (app_assoc (cwd w) (o :: os) [f]), removelast_last.
Qed.

(** What [save] answers and does to the files depends on the picture, the
    path, the current directory, the directories and the refusals only. *)
Lemma Image_save_effect p w img :
  ∃ e r,
    (r = Ok () ↔ ∃ b, e = Written b)
    ∧ ∀ w2 l2,
        cwd w2 = cwd w → dirs w2 = dirs w → denied w2 = denied w →
        heap w2 !! l2 = Some img →
        (Image_save l2 p w2).1 = r
        ∧ files (Image_save l2 p w2).2 = apply_effect e (resolve w p) (files w2).
Proof.
  destruct (EXTENSION (lower (splitext_ext (basename p)))) as [format|] eqn:He.
  2:{ eexists Untouched, (Raise _). split; [split; [done | by intros [? ?]]|].
      intros w2 l2 _ _ _ _. unfold Image_save. by rewrite He. }
  destruct (bool_decide (parent (resolve w p) ∈ dirs w)) eqn:Hp.
  2:{ eexists Untouched, (Raise _). split; [split; [done | by intros [? ?]]|].
      intros w2 l2 Hc Hd _ _. unfold Image_save.
      by rewrite He, (resolve_same_cwd _ _ _ Hc), Hd, Hp. }
  destruct (bool_decide (resolve w p ∈ dirs w)) eqn:Hq.
  { eexists Untouched, (Raise _). split; [split; [done | by intros [? ?]]|].
    intros w2 l2 Hc Hd _ _. unfold Image_save.
    by rewrite He, (resolve_same_cwd _ _ _ Hc), Hd, Hp, Hq. }
  destruct (bool_decide (resolve w p ∈ denied w)) eqn:Hn.
  { eexists Untouched, (Raise _). split; [split; [done | by intros [? ?]]|].
    intros w2 l2 Hc Hd Hden _. unfold Image_save.
    by rewrite He, (resolve_same_cwd _ _ _ Hc), Hd, Hden, Hp, Hq, Hn. }
  destruct (encode format img) as [b|e] eqn:Henc.
  - exists (Written b), (Ok ()). split; [split; [by eexists | done]|].
    intros w2 l2 Hc Hd Hden Hl. unfold Image_save.
    by rewrite He, (resolve_same_cwd _ _ _ Hc), Hd, Hden, Hp, Hq, Hn, Hl, Henc.
  - exists Truncated, (Raise e). split; [split; [done | by intros [? ?]]|].
    intros w2 l2 Hc Hd Hden Hl. unfold Image_save.
    rewrite He, (resolve_same_cwd _ _ _ Hc), Hd, Hden, Hp, Hq, Hn, Hl, Henc.
    simpl. split; [done|].
    by destruct (bool_decide (resolve w p ∈ dom (files w2))).
Qed.

(** What a render answers and does to the files depends on the name and
    on the setting only, and all it may touch is the file of that name. *)
Lemma render_effect self name w :
  ∃ e r,
    (is_Some r ↔ ∃ b, e = Written b)
    ∧ ∀ w2,
        same_setting self w w2 →
        (generate_certificate self name w2).1 = Ok r
        ∧ files (generate_certificate self name w2).2
          = apply_effect e (certificate_file self w name) (files w2).
Proof.
  assert (∀ b : blob, ¬ (Untouched = Written b)) as Hno by done.
  destruct (heap w !! template self) as [img|] eqn:Ht.
  2:{ exists Untouched, None.
      split; [split; [by intros [? ?] | by intros [? ?]]|].
      intros w2 (_&_&_&Hh). rewrite generate_certificate_unfold, Hh, Ht.
      done. }
  destruct (textbbox (0, 0)%Z name (font self)) as [box|e] eqn:Hb.
  2:{ exists Untouched, None.
      split; [split; [by intros [? ?] | by intros [? ?]]|].
      intros w2 (_&_&_&Hh). rewrite generate_certificate_unfold, Hh, Ht, Hb.
      done. }
  destruct (draw_text img (centred self box) name (font_color self)
              (font self)) as [img'|e] eqn:Hd.
  2:{ exists Untouched, None.
      split; [split; [by intros [? ?] | by intros [? ?]]|].
      intros w2 (_&_&_&Hh).
      rewrite generate_certificate_unfold, Hh, Ht, Hb. cbn zeta.
      by rewrite Hd. }
  destruct (Image_save_effect
              (path_div (output_dir self) (output_filename name)) w img')
    as (e & r & Hr & Hsave).
  exists e, (match r with
             | Ok _ => Some (path_div (output_dir self) (output_filename name))
             | Raise _ => None
             end).
  split.
  { rewrite <-Hr. destruct r as [[]|]; split; try done; by intros [? ?]. }
  intros w2 (Hc&Hdirs&Hden&Hh).
  rewrite generate_certificate_unfold, Hh, Ht, Hb. cbn zeta. rewrite Hd.
  match goal with
  | |- context [Image_save ?l ?p ?w3] =>
      destruct (Hsave w3 l Hc Hdirs Hden) as [H1 H2];
        [simpl; by rewrite lookup_insert_eq|];
        destruct (Image_save l p w3) as [r3 w4]
  end.
  simpl in H1, H2. subst r3. by destruct r as [[]|].
Qed.

Lemma apply_effect_idempotent e q f :
  apply_effect e q (apply_effect e q f) = apply_effect e q f.
Proof.
  destruct e as [|b|]; simpl; [done|by rewrite insert_insert_eq|].
  destruct (decide (q ∈ dom f)) as [Hq|Hq].
  - rewrite (bool_decide_eq_true_2 _ Hq).
    rewrite bool_decide_eq_true_2 by (rewrite dom_insert_L; set_solver).
    by rewrite insert_insert_eq.
  - rewrite (bool_decide_eq_false_2 _ Hq).
    by rewrite (bool_decide_eq_false_2 _ Hq).
Qed.

Lemma apply_effect_other e q f q' :
  q' ≠ q → apply_effect e q f !! q' = f !! q'.
Proof.
  intros Hne. destruct e as [|b|]; simpl; [done| |].
  - by rewrite lookup_insert_ne.
  - case_bool_decide; [by rewrite lookup_insert_ne | done].
Qed.

Lemma same_setting_refl self w : same_setting self w w.
Proof. done. Qed.

Lemma render_same_setting self name w :
  same_setting self w (generate_certificate self name w).2.
Proof.
  destruct (generate_certificate_spec self name w)
    as (r & w' & new & -> & (?&?&?&_) & Ht & _).
  done.
Qed.

(** X5: rendering the same name a second time answers as the first time
    did and leaves the files as the first render left them. *)
Theorem render_twice_same_files self name w :
  (generate_certificate self name (generate_certificate self name w).2).1
  = (generate_certificate self name w).1
  ∧ files (generate_certificate self name
             (generate_certificate self name w).2).2
    = files (generate_certificate self name w).2.
Proof.
  destruct (render_effect self name w) as (e & r & _ & Heff).
  destruct (Heff w (same_setting_refl self w)) as [Hr1 Hf1].
  destruct (Heff _ (render_same_setting self name w)) as [Hr2 Hf2].
  rewrite Hr1, Hr2, Hf2, Hf1. split; [done|]. apply apply_effect_idempotent.
Qed.

(** ** A render that succeeds *)

Lemma Image_save_ok l p w format img b :
  EXTENSION (lower (splitext_ext (basename p))) = Some format →
  parent (resolve w p) ∈ dirs w →
  resolve w p ∉ dirs w →
  resolve w p ∉ denied w →
  heap w !! l = Some img →
  encode format img = Ok b →
  Image_save l p w = (Ok (), set_files (<[resolve w p := b]> (files w)) w).
Proof.
  intros He Hp Hq Hn Hl Henc. unfold Image_save.
  rewrite He, (bool_decide_eq_true_2 _ Hp), (bool_decide_eq_false_2 _ Hq),
    (bool_decide_eq_false_2 _ Hn), Hl, Henc.
  done.
Qed.

Lemma Image_save_inv l p w w' :
  Image_save l p w = (Ok (), w') →
  ∃ format img b,
    EXTENSION (lower (splitext_ext (basename p))) = Some format
    ∧ parent (resolve w p) ∈ dirs w
    ∧ (resolve w p ∉ dirs w)
    ∧ (resolve w p ∉ denied w)
    ∧ heap w !! l = Some img
    ∧ encode format img = Ok b
    ∧ w' = set_files (<[resolve w p := b]> (files w)) w.
Proof.
  unfold Image_save.
  destruct (EXTENSION _) as [format|]; [|done].
  destruct (bool_decide (parent _ ∈ _)) eqn:Hp; [|done].
  destruct (bool_decide (resolve w p ∈ dirs w)) eqn:Hq; [done|].
  destruct (bool_decide (resolve w p ∈ denied w)) eqn:Hn; [done|].
  destruct (heap w !! l) as [img|]; [|done].
  destruct (encode format img) as [b|] eqn:Henc; [|done].
  intros [= <-]. exists format, img, b.
  apply bool_decide_eq_true in Hp. apply bool_decide_eq_false in Hq.
  apply bool_decide_eq_false in Hn. done.
Qed.

Lemma certificate_extension self name :
  EXTENSION (lower (splitext_ext
    (basename (path_div (output_dir self) (output_filename name)))))
  = if bool_decide (safe_filename name = []) then None else Some (u "PNG").
Proof.
  unfold basename, path_div. rewrite last_snoc. simpl.
  case_bool_decide as Hs.
  - unfold output_filename. by rewrite Hs.
  - by apply output_filename_extension.
Qed.

Lemma generate_certificate_success self name w img box img' bytes :
  heap w !! template self = Some img →
  textbbox (0, 0)%Z name (font self) = Ok box →
  draw_text img (centred self box) name (font_color self) (font self)
  = Ok img' →
  encode (u "PNG") img' = Ok bytes →
  safe_filename name ≠ [] →
  resolve w (output_dir self) ∈ dirs w →
  certificate_file self w name ∉ dirs w →
  certificate_file self w name ∉ denied w →
  ∃ w',
    generate_certificate self name w
    = (Ok (Some (path_div (output_dir self) (output_filename name))), w')
    ∧ files w' = <[certificate_file self w name := bytes]> (files w)
    ∧ printed_since w w' = [PGenerated name].
Proof.
  intros Ht Hb Hd Henc Hstem Hdir Hq Hn.
  rewrite generate_certificate_unfold, Ht, Hb. cbn zeta. rewrite Hd.
  erewrite Image_save_ok; [| | | | |by apply lookup_insert_eq|exact Henc].
  - eexists. split; [done|]. split; [done|].
    unfold printed_since. simpl. by rewrite drop_app_length.
  - rewrite certificate_extension. by rewrite bool_decide_eq_false_2.
  - rewrite parent_resolve_path_div; [done|].
    unfold output_filename. by destruct (safe_filename name).
  - done.
  - done.
Qed.

(** X6: when the template object is there, measuring, drawing and
    encoding go through, the stem is not empty, the output directory
    exists and the OS lets the file be written, the render answers the
    path [<output_dir>/<stem>.png], prints its success line, and the file
    holds the PNG of the template with the name drawn at the centred
    position in the configured colour and font, in place of whatever was
    there. *)
Theorem render_writes_encoded_copy self name w img box img' bytes :
  heap w !! template self = Some img →
  textbbox (0, 0)%Z name (font self) = Ok box →
  draw_text img (centred self box) name (font_color self) (font self)
  = Ok img' →
  encode (u "PNG") img' = Ok bytes →
  safe_filename name ≠ [] →
  resolve w (output_dir self) ∈ dirs w →
  certificate_file self w name ∉ dirs w →
  certificate_file self w name ∉ denied w →
  ∃ w',
    generate_certificate self name w
    = (Ok (Some (path_div (output_dir self) (output_filename name))), w')
    ∧ files w' = <[certificate_file self w name := bytes]> (files w)
    ∧ printed_since w w' = [PGenerated name].
Proof. apply generate_certificate_success. Qed.

Lemma generate_certificate_success_inv self name w p w' :
  generate_certificate self name w = (Ok (Some p), w') →
  ∃ img box img' bytes,
    p = path_div (output_dir self) (output_filename name)
    ∧ safe_filename name ≠ []
    ∧ heap w !! template self = Some img
    ∧ textbbox (0, 0)%Z name (font self) = Ok box
    ∧ draw_text img (centred self box) name (font_color self) (font self)
      = Ok img'
    ∧ encode (u "PNG") img' = Ok bytes
    ∧ files w' = <[certificate_file self w name := bytes]> (files w).
Proof.
  rewrite generate_certificate_unfold.
  destruct (heap w !! template self) as [img|]; [|done].
  destruct (textbbox _ _ _) as [box|]; [|done]. cbn zeta.
  destruct (draw_text _ _ _ _ _) as [img'|] eqn:Hd; [|done].
  destruct (Image_save _ _ _) as [[[]|e] w4] eqn:Hsave; [|done].
  intros [= <- <-].
  apply Image_save_inv in Hsave
    as (format & img2 & b & He & _ & _ & _ & Hl & Henc & ->).
  simpl in Hl. rewrite lookup_insert_eq in Hl. injection Hl as <-.
  rewrite certificate_extension in He.
  case_bool_decide as Hs; [done|]. injection He as <-.
  by exists img, box, img', b.
Qed.

(** X7: a render that answers a path has found measuring, drawing and
    encoding to go through for a name whose stem is not empty, and has put
    the PNG of the drawn copy at [<output_dir>/<stem>.png]. *)
Theorem render_success_content self name w p w' :
  generate_certificate self name w = (Ok (Some p), w') →
  ∃ img box img' bytes,
    p = path_div (output_dir self) (output_filename name)
    ∧ safe_filename name ≠ []
    ∧ heap w !! template self = Some img
    ∧ textbbox (0, 0)%Z name (font self) = Ok box
    ∧ draw_text img (centred self box) name (font_color self) (font self)
      = Ok img'
    ∧ encode (u "PNG") img' = Ok bytes
    ∧ files w' = <[certificate_file self w name := bytes]> (files w).
Proof. apply generate_certificate_success_inv. Qed.

(** ** What a batch leaves alone *)

Lemma batch_loop_preserves (P : world → Prop) self names successful failed w :
  (∀ name w1, name ∈ names → P w1 → P (generate_certificate self name w1).2) →
  P w → P (batch_loop self names successful failed w).2.
Proof.
  revert successful failed w.
  induction names as [|name rest IH]; intros successful failed w Hstep Hw;
    [done|].
  simpl. rewrite bind_run.
  pose proof (Hstep name w (list_elem_of_here _ _) Hw) as Hw1.
  destruct (generate_certificate_spec self name w)
    as (r & w1 & new & Hrun & _).
  rewrite Hrun in Hw1 |- *. simpl in Hw1.
  destruct r; apply IH; try done;
    intros n w2 Hn; apply Hstep; by apply list_elem_of_further.
Qed.

Lemma generate_batch_unfold self names w :
  generate_batch self names w
  = match batch_loop self names 0 0
            (add_stdout PRule
               (add_stdout (PGenerating (length names)) w)) with
    | (Ok (successful, failed), w1) =>
        (Ok (),
         add_stdout (POutputDirectory (resolve w1 (output_dir self)))
           (add_stdout (PFailed failed)
              (add_stdout (PSuccessful successful)
                 (add_stdout PComplete (add_stdout PRule w1)))))
    | (Raise e, w1) => (Raise e, w1)
    end.
Proof.
  unfold generate_batch. rewrite bind_run. unfold print at 1. cbn beta iota.
  rewrite bind_run. unfold print at 1. cbn beta iota. rewrite bind_run.
  by destruct (batch_loop _ _ _ _ _) as [[[??]|?] ?].
Qed.

Lemma generate_batch_preserves (P : world → Prop) self names w :
  (∀ l w1, P w1 → P (add_stdout l w1)) →
  (∀ name w1, name ∈ names → P w1 → P (generate_certificate self name w1).2) →
  P w → P (generate_batch self names w).2.
Proof.
  intros Hprint Hstep Hw. rewrite generate_batch_unfold.
  pose proof (batch_loop_preserves P self names 0 0 _ Hstep
                (Hprint PRule _ (Hprint (PGenerating (length names)) _ Hw)))
    as Hloop.
  destruct (batch_loop _ _ _ _ _) as [[[??]|?] w1]; simpl in *; [|done].
  by repeat apply Hprint.
Qed.

(** X8: a batch changes no file but the certificates of its names: a
    path that is the certificate of none of them holds after the batch
    what it held before. *)
Theorem batch_touches_only_certificates self names w q :
  (∀ name, name ∈ names → q ≠ certificate_file self w name) →
  files (generate_batch self names w).2 !! q = files w !! q.
Proof.
  intros Hq.
  apply (generate_batch_preserves
           (λ w1, cwd w1 = cwd w ∧ files w1 !! q = files w !! q)).
  - by intros l w1.
  - intros name w1 Hin [Hc Hf].
    destruct (render_effect self name w1) as (e & r & _ & Heff).
    destruct (Heff w1 (same_setting_refl self w1)) as [_ ->].
    destruct (render_same_setting self name w1) as (Hc1 & _).
    split; [congruence|]. rewrite apply_effect_other; [done|].
    unfold certificate_file. rewrite (resolve_same_cwd _ _ _ Hc).
    by apply Hq.
  - done.
Qed.

Lemma certificate_file_same_cwd self w w2 name :
  cwd w2 = cwd w → certificate_file self w2 name = certificate_file self w name.
Proof. intros Hc. unfold certificate_file. by apply resolve_same_cwd. Qed.

(** X9: the last write wins: when two names have the same stem and both
    renders succeed, they answer the same path, and the files are then as
    if the second name alone had been rendered. *)
Theorem same_stem_last_write_wins self name1 name2 w p1 w1 p2 w2 :
  safe_filename name1 = safe_filename name2 →
  generate_certificate self name1 w = (Ok (Some p1), w1) →
  generate_certificate self name2 w1 = (Ok (Some p2), w2) →
  p1 = p2
  ∧ ∃ img box img' bytes,
      heap w !! template self = Some img
      ∧ textbbox (0, 0)%Z name2 (font self) = Ok box
      ∧ draw_text img (centred self box) name2 (font_color self) (font self)
        = Ok img'
      ∧ encode (u "PNG") img' = Ok bytes
      ∧ files w2 = <[certificate_file self w name2 := bytes]> (files w).
Proof.
  intros Hstem Hrun1 Hrun2.
  pose proof (render_same_setting self name1 w) as (Hc & _ & _ & Ht).
  rewrite Hrun1 in Hc, Ht. simpl in Hc, Ht.
  apply generate_certificate_success_inv in Hrun1
    as (img1 & box1 & img1' & bytes1 & -> & _ & _ & _ & _ & _ & Hf1).
  apply generate_certificate_success_inv in Hrun2
    as (img & box & img' & bytes & -> & _ & Himg & Hb & Hd & Henc & Hf2).
  split; [unfold output_filename; by rewrite Hstem|].
  exists img, box, img', bytes. rewrite <-Ht. repeat split; try done.
  rewrite Hf2, Hf1, (certificate_file_same_cwd _ _ _ _ Hc).
  assert (certificate_file self w name1 = certificate_file self w name2) as ->.
  { unfold certificate_file, output_filename. by rewrite Hstem. }
  apply insert_insert_eq.
Qed.

(** ** A batch with nowhere to write *)

Lemma render_without_directory self name w :
  resolve w (output_dir self) ∉ dirs w →
  (generate_certificate self name w).1 = Ok None
  ∧ files (generate_certificate self name w).2 = files w.
Proof.
  intros Hdir. rewrite generate_certificate_unfold.
  destruct (heap w !! template self) as [img|]; [|done].
  destruct (textbbox _ _ _) as [box|]; [|done]. cbn zeta.
  destruct (draw_text _ _ _ _ _) as [img'|]; [|done].
  unfold Image_save. rewrite certificate_extension.
  case_bool_decide; [done|].
  match goal with
  | |- context [parent (resolve ?w3 ?p)] =>
      change (resolve w3 p) with (resolve w p);
        change (dirs w3) with (dirs w)
  end.
  rewrite parent_resolve_path_div;
    [|unfold output_filename; by destruct (safe_filename name)].
  by rewrite (bool_decide_eq_false_2 _ Hdir).
Qed.

Lemma batch_loop_all_fail (P : world → Prop) self names successful failed w :
  (∀ name w1, P w1 →
     (generate_certificate self name w1).1 = Ok None
     ∧ P (generate_certificate self name w1).2) →
  P w →
  (batch_loop self names successful failed w).1
  = Ok (successful, (failed + length names)%nat).
Proof.
  intros Hstep. revert successful failed w.
  induction names as [|name rest IH]; intros successful failed w Hw; simpl.
  - by rewrite Nat.add_0_r.
  - rewrite bind_run. destruct (Hstep name w Hw) as [Hr Hw1].
    destruct (generate_certificate self name w) as [r w1].
    simpl in Hr, Hw1. subst r.
    rewrite (IH successful (failed + 1)%nat w1 Hw1). do 2 f_equal. lia.
Qed.

(** X10: when the output directory is not there at render time, every
    render of the batch fails: the report counts 0 successes and as many
    failures as there are names, and no file is written. *)
Theorem batch_without_output_directory self names w :
  resolve w (output_dir self) ∉ dirs w →
  ∃ statuses w',
    generate_batch self names w = (Ok (), w')
    ∧ printed_since w w'
      = batch_report (length names) statuses 0 (length names)
          (resolve w (output_dir self))
    ∧ files w' = files w.
Proof.
  intros Hdir. set (w0 := add_stdout PRule
                            (add_stdout (PGenerating (length names)) w)).
  set (P := λ w1 : world,
              cwd w1 = cwd w ∧ dirs w1 = dirs w ∧ files w1 = files w).
  assert (∀ name w1, P w1 →
            (generate_certificate self name w1).1 = Ok None
            ∧ P (generate_certificate self name w1).2) as Hstep.
  { intros name w1 (Hc & Hd & Hf).
    destruct (render_without_directory self name w1) as [Hr Hfiles].
    { by rewrite (resolve_same_cwd _ _ _ Hc), Hd. }
    split; [done|].
    destruct (render_same_setting self name w1) as (Hc1 & Hd1 & _).
    repeat split; congruence. }
  assert (P w0) as Hw0 by done.
  pose proof (batch_loop_all_fail P self names 0 0 w0 Hstep Hw0) as Hcount.
  pose proof (batch_loop_preserves P self names 0 0 w0
                (λ name w1 _ Hw1, proj2 (Hstep name w1 Hw1)) Hw0) as Hkeep.
  rewrite generate_batch_unfold. fold w0.
  destruct (batch_loop_spec self names 0 0 w0)
    as (statuses & w1 & Hrun & Hx & _ & _).
  rewrite Hrun in Hcount, Hkeep |- *. simpl in Hcount, Hkeep.
  injection Hcount as Hs Hf. rewrite Hs, Hf.
  destruct Hkeep as (Hc & _ & Hfiles).
  destruct Hx as (_&_&_&_&_&_&Hout).
  exists statuses. eexists. split; [done|]. split; [|done].
  unfold printed_since, batch_report. simpl. rewrite Hout. subst w0. simpl.
  rewrite (resolve_same_cwd _ _ _ Hc).
  by rewrite <-!app_assoc, drop_app_length.
Qed.

(** ** Reading a column *)

Lemma column_present df label :
  label ∈ columns df →
  ∃ cells, column df label = Some cells ∧ (label, cells) ∈ df.
Proof.
  induction df as [|[l cells] df IH]; simpl.
  - by intros ?%elem_of_nil.
  - intros Hin. case_bool_decide as Hl.
    + subst l. exists cells. split; [done | by left].
    + apply elem_of_cons in Hin as [?|Hin]; [done|].
      destruct (IH Hin) as (cells' & -> & ?). exists cells'.
      split; [done | by right].
Qed.

Lemma column_label df label cells :
  column df label = Some cells → label ∈ columns df.
Proof.
  induction df as [|[l c] df IH]; simpl; [done|].
  case_bool_decide as Hl; [intros _; subst l; by left|].
  intros ?%IH. by right.
Qed.

Lemma read_names_present csv_path name_column w b df cells :
  files w !! resolve w csv_path = Some b →
  parse_csv b = Ok df →
  column df name_column = Some cells →
  read_names_from_csv csv_path name_column w
  = (Ok cells, add_call (CallReadCsv csv_path) w).
Proof.
  intros Hb Hdf Hcells.
  unfold read_names_from_csv, try_except.
  rewrite bind_run, (read_csv_run _ _ _ _ Hb Hdf).
  rewrite bool_decide_eq_false_2
    by (intros Hn; by apply Hn, (column_label _ _ _ Hcells)).
  by rewrite Hcells.
Qed.

(** X11: when the file parses and has the requested column,
    [read_names_from_csv] answers the cells of that column (of the first
    one, should two carry the label), in the order of the rows, and does
    nothing but that one read. *)
Theorem read_names_returns_column csv_path name_column w b df :
  files w !! resolve w csv_path = Some b →
  parse_csv b = Ok df →
  name_column ∈ columns df →
  ∃ cells,
    read_names_from_csv csv_path name_column w
    = (Ok cells, add_call (CallReadCsv csv_path) w)
    ∧ column df name_column = Some cells
    ∧ (name_column, cells) ∈ df.
Proof.
  intros Hb Hdf Hcol.
  destruct (column_present df name_column Hcol) as (cells & Hcells & Hin).
  exists cells. split; [|done].
  by apply (read_names_present _ _ _ b df).
Qed.

Lemma read_csv_world p w :
  (read_csv p w).2 = add_call (CallReadCsv p) w.
Proof.
  unfold read_csv, read_file, lift. rewrite !bind_run. simpl.
  destruct (files w !! _) as [b|]; [|done].
  by destruct (parse_csv b).
Qed.

(** X12: whatever goes wrong in [read_names_from_csv] (no file, a file
    that does not parse, no such column) comes out as a plain [Exception]
    whose message starts with [Error reading CSV file: ]; and, failing or
    not, the call leaves the world as it was but for the one read. *)
Theorem read_names_errors_are_wrapped csv_path name_column w :
  (read_names_from_csv csv_path name_column w).2
  = add_call (CallReadCsv csv_path) w
  ∧ match (read_names_from_csv csv_path name_column w).1 with
    | Ok cells => True
    | Raise e =>
        exn_cls e = Exception
        ∧ ∃ m, exn_msg e = u "Error reading CSV file: " ++ m
    end.
Proof.
  unfold read_names_from_csv, try_except. rewrite bind_run.
  pose proof (read_csv_world csv_path w) as Hw.
  destruct (read_csv csv_path w) as [[df|e] w1]; simpl in Hw; subst w1.
  2:{ split; [done|]. split; [done | by eexists]. }
  case_bool_decide.
  - split; [done|]. split; [done | by eexists].
  - destruct (column df name_column); [done|].
    split; [done|]. split; [done | by eexists].
Qed.

(** ** The entry point *)

Ltac main_step_print := rewrite bind_run; unfold print at 1; cbn beta iota.

Ltac main_step_exists :=
  rewrite bind_run;
  match goal with
  | |- context [path_exists ?p ?w0] =>
      destruct (path_exists_run w0 p) as [? ->]
  end;
  main_step_print.

(** The lines and the reads of [main] up to the names. *)
Ltac main_prelude b df Hb Hdf :=
  unfold main, try_except;
  rewrite bind_run; cbn beta iota;
  do 2 main_step_print;
  do 3 main_step_exists;
  main_step_print;
  rewrite bind_run;
  match goal with
  | |- context [read_csv ?p ?w0] => rewrite (read_csv_run p w0 b df Hb Hdf)
  end;
  main_step_print;
  rewrite bind_run.

(** X13: a table whose column [name] has no row makes [main] print that
    no names were found and stop there: no generator is built, so no font
    or template is decoded and no output directory is made. *)
Theorem main_no_names w b df :
  files w !! resolve w config_csv_path = Some b →
  parse_csv b = Ok df →
  column df (u "name") = Some [] →
  ∃ w',
    main w = (Ok (), w')
    ∧ last (stdout w') = Some PNoNames
    ∧ files w' = files w ∧ dirs w' = dirs w ∧ heap w' = heap w
    ∧ calls w'
      = calls w ++ [CallReadCsv config_csv_path; CallReadCsv config_csv_path].
Proof.
  intros Hb Hdf Hcells. main_prelude b df Hb Hdf.
  match goal with
  | |- context [read_names_from_csv ?p ?c ?w0] =>
      rewrite (read_names_present p c w0 b df [] Hb Hdf Hcells)
  end.
  unfold print. eexists. split; [done|]. simpl.
  repeat split; try done; [by rewrite last_snoc | by rewrite <-app_assoc].
Qed.

(** X14: with a table whose column [name] has rows, [main] builds the
    generator from its fixed configuration, in a world where nothing but
    the console and the log of reads has changed, and renders exactly the
    cells of that column, in order; when construction fails it prints the
    error and renders nothing. *)
Theorem main_renders_name_column w b df names :
  files w !! resolve w config_csv_path = Some b →
  parse_csv b = Ok df →
  column df (u "name") = Some names →
  names ≠ [] →
  ∃ w3,
    (cwd w3 = cwd w ∧ files w3 = files w ∧ dirs w3 = dirs w
     ∧ denied w3 = denied w ∧ heap w3 = heap w)
    ∧ main w
      = match __init__ config_template_path config_font_path
                config_font_size config_font_color config_output_dir w3 with
        | (Ok generator, w4) => generate_batch generator names w4
        | (Raise e, w4) => (Ok (), add_stdout (PError (exn_msg e)) w4)
        end.
Proof.
  intros Hb Hdf Hcells Hne. main_prelude b df Hb Hdf.
  match goal with
  | |- context [read_names_from_csv ?p ?c ?w0] =>
      rewrite (read_names_present p c w0 b df names Hb Hdf Hcells)
  end.
  destruct names as [|n ns]; [done|].
  do 2 main_step_print. rewrite bind_run.
  match goal with
  | |- context [__init__ _ _ _ _ _ ?w0] => exists w0
  end.
  split; [done|].
  destruct (__init__ _ _ _ _ _ _) as [[g|e] w4]; [|done].
  by destruct (generate_batch_spec g (n :: ns) w4) as (? & ? & -> & _).
Qed.

(** ** Construction, when it goes through *)

Lemma path_exists_file w p b :
  files w !! resolve w p = Some b → path_exists p w = (Ok true, w).
Proof.
  intros Hb. unfold path_exists.
  rewrite bool_decide_eq_true_2; [done|]. apply elem_of_dom. by eexists.
Qed.

Lemma _validate_paths_ok tp fp w bt bf :
  files w !! resolve w tp = Some bt →
  files w !! resolve w fp = Some bf →
  _validate_paths tp fp w = (Ok (), w).
Proof.
  intros Ht Hf. unfold _validate_paths.
  rewrite bind_run, (path_exists_file _ _ _ Ht). simpl.
  by rewrite bind_run, (path_exists_file _ _ _ Hf).
Qed.

Lemma ImageFont_truetype_value p size w :
  ImageFont_truetype p size w
  = match files w !! resolve w p with
    | Some b => (decode_font b size, add_call (CallTruetype p size) w)
    | None =>
        (Raise (Exn FileNotFoundError (path_str p)),
         add_call (CallTruetype p size) w)
    end.
Proof.
  unfold ImageFont_truetype, read_file, lift. rewrite !bind_run. simpl.
  change (resolve (add_call (CallTruetype p size) w) p) with (resolve w p).
  destruct (files w !! resolve w p) as [b|]; [|done].
  by destruct (decode_font b size).
Qed.

Lemma Image_open_value p w :
  Image_open p w
  = match files w !! resolve w p with
    | Some b =>
        match decode_image b with
        | Ok img =>
            (Ok (fresh (dom (heap w))),
             set_heap (<[fresh (dom (heap w)) := img]> (heap w))
               (add_call (CallImageOpen p) w))
        | Raise e => (Raise e, add_call (CallImageOpen p) w)
        end
    | None =>
        (Raise (Exn FileNotFoundError (path_str p)),
         add_call (CallImageOpen p) w)
    end.
Proof.
  unfold Image_open, read_file, lift, alloc. rewrite !bind_run. simpl.
  change (resolve (add_call (CallImageOpen p) w) p) with (resolve w p).
  destruct (files w !! resolve w p) as [b|]; [|done].
  by destruct (decode_image b).
Qed.

Lemma mkdir_each_run qs w r w' :
  mkdir_each qs w = (r, w') →
  w' = set_dirs (dirs w') w
  ∧ dirs w ⊆ dirs w'
  ∧ (r = Ok () → Forall (λ q, q ∈ dirs w') qs).
Proof.
  revert w. induction qs as [|q qs IH]; intros w; simpl.
  { intros [= <- <-]. by destruct w. }
  case_bool_decide as Hq.
  { intros Hrun. destruct (IH _ Hrun) as (Hw & Hsub & Hall).
    split; [done|]. split; [done|]. intros Hr. constructor; [|by apply Hall].
    by apply Hsub. }
  case_bool_decide; [intros [= <- <-]; by destruct w|].
  case_bool_decide; [intros [= <- <-]; by destruct w|].
  intros Hrun. destruct (IH _ Hrun) as (Hw & Hsub & Hall). simpl in *.
  split; [by rewrite Hw|].
  assert (q ∈ dirs w') as Hqw.
  { apply Hsub, elem_of_union_l. by apply elem_of_singleton. }
  split; [etrans; [apply union_subseteq_r|exact Hsub]|].
  intros Hr. constructor; [done | by apply Hall].
Qed.

Lemma ancestors_self p : p ≠ [] → p ∈ ancestors p.
Proof.
  intros Hp. unfold ancestors. apply list_elem_of_fmap.
  exists (length p). split; [by rewrite firstn_all|].
  apply elem_of_seq. destruct p; simpl in *; [done | lia].
Qed.

Lemma __init___inv tp fp size color out w self w' :
  __init__ tp fp size color out w = (Ok self, w') →
  ∃ bf bt img,
    files w !! resolve w fp = Some bf
    ∧ decode_font bf size = Ok (font self)
    ∧ files w !! resolve w tp = Some bt
    ∧ decode_image bt = Ok img
    ∧ self = {| template_path := tp; font_path := fp; font_size := size;
                font_color := color; output_dir := out; font := font self;
                template := fresh (dom (heap w));
                width := (image_size img).1; height := (image_size img).2 |}
    ∧ w' = set_dirs (dirs w')
             (set_heap (<[fresh (dom (heap w)) := img]> (heap w))
                (add_call (CallImageOpen tp)
                   (add_call (CallTruetype fp size) w)))
    ∧ dirs w ⊆ dirs w'
    ∧ Forall (λ q, q ∈ dirs w') (ancestors (resolve w out)).
Proof.
  unfold __init__. rewrite bind_run.
  destruct (_validate_paths tp fp w) as [[[]|e] w1] eqn:Hv; [|done].
  apply _validate_paths_run in Hv as ->.
  rewrite bind_run, ImageFont_truetype_value.
  destruct (files w !! resolve w fp) as [bf|]; [|done].
  destruct (decode_font bf size) as [fnt|] eqn:Hfnt; [|done].
  rewrite bind_run, Image_open_value.
  change (resolve (add_call (CallTruetype fp size) w) tp) with (resolve w tp).
  change (files (add_call (CallTruetype fp size) w)) with (files w).
  destruct (files w !! resolve w tp) as [bt|]; [|done].
  destruct (decode_image bt) as [img|] eqn:Himg; [|done].
  rewrite bind_run. unfold load. simpl. rewrite lookup_insert_eq.
  rewrite bind_run.
  destruct (mkdir out _) as [[[]|e] w2] eqn:Hmk; [|done].
  apply mkdir_each_run in Hmk as (Hw2 & Hsub & Hall).
  intros [= <- <-]. exists bf, bt, img. simpl in *.
  repeat split; try done. by apply Hall.
Qed.

(** X15: a construction that succeeds has found both files and decoded
    the font, then the template (in that order, once each); the template is
    a new image object whose size is recorded as [width] and [height]; no
    file and no other image object has changed; the directories that were
    there still are, and the output directory and the directories above it
    now are. *)
Theorem __init___builds_generator tp fp size color out w self w' :
  __init__ tp fp size color out w = (Ok self, w') →
  (∃ bf, files w !! resolve w fp = Some bf
         ∧ decode_font bf size = Ok (font self))
  ∧ (∃ bt img,
       files w !! resolve w tp = Some bt
       ∧ decode_image bt = Ok img
       ∧ (template self ∉ dom (heap w))
       ∧ heap w' = <[template self := img]> (heap w)
       ∧ image_size img = (width self, height self))
  ∧ output_dir self = out ∧ font_color self = color
  ∧ files w' = files w
  ∧ calls w' = calls w ++ [CallTruetype fp size; CallImageOpen tp]
  ∧ stdout w' = stdout w
  ∧ dirs w ⊆ dirs w'
  ∧ Forall (λ q, q ∈ dirs w') (ancestors (resolve w out))
  ∧ (resolve w out = [] ∨ resolve w out ∈ dirs w').
Proof.
  intros Hinit.
  destruct (__init___inv _ _ _ _ _ _ _ _ Hinit)
    as (bf & bt & img & Hbf & Hfnt & Hbt & Himg & Hself & Hw' & Hsub & Hall).
  split; [by exists bf|]. split.
  { exists bt, img. rewrite Hself, Hw'. simpl.
    repeat split; try done; [apply is_fresh | by destruct (image_size img)]. }
  rewrite Hself, Hw'. simpl. repeat split; try done.
  all: try (by rewrite <-app_assoc).
  all: try (by rewrite Hw' in Hall).
  destruct (decide (resolve w out = [])) as [?|Hne]; [by left|right].
  rewrite Hw' in Hall. simpl in Hall.
  by apply (proj1 (Forall_forall _ _) Hall), ancestors_self.
Qed.

Lemma mkdir_each_ok qs w :
  Forall (λ q, q ∈ dirs w ∨ (q ∉ dom (files w)) ∧ (q ∉ denied w)) qs →
  mkdir_each qs w = (Ok (), set_dirs (list_to_set qs ∪ dirs w) w).
Proof.
  revert w. induction qs as [|q qs IH]; intros w Hall; cbn [mkdir_each].
  { rewrite list_to_set_nil, (left_id_L ∅ (∪)). by destruct w. }
  apply Forall_cons in Hall as [Hq Hall]. rewrite list_to_set_cons.
  case_bool_decide as Hd.
  { rewrite (IH w Hall).
    assert ({[q]} ∪ list_to_set qs ∪ dirs w = list_to_set qs ∪ dirs w)
      as ->; [|done].
    rewrite <-(assoc_L (∪)).
    by apply subseteq_union_1_L, singleton_subseteq_l, elem_of_union_r. }
  destruct Hq as [?|[Hf Hn]]; [done|].
  rewrite (bool_decide_eq_false_2 _ Hf), (bool_decide_eq_false_2 _ Hn).
  rewrite IH.
  - unfold set_dirs. cbn [cwd files dirs denied heap stdout calls].
    by rewrite (assoc_L (∪)), (comm_L (∪) (list_to_set qs)).
  - cbn [set_dirs cwd files dirs denied heap stdout calls].
    eapply Forall_impl; [exact Hall|].
    intros q' [?|?]; [left|by right]. by apply elem_of_union_r.
Qed.

(** X16: when both files are there and decode, and each directory on the
    way to the output directory either exists or may be made (nothing in
    its place, no refusal), construction succeeds: it records the paths,
    the font and the size of the template, makes the template a new image
    object, and adds exactly those directories.  An output directory that
    already exists is no obstacle. *)
Theorem __init___succeeds tp fp size color out w bf bt fnt img :
  files w !! resolve w fp = Some bf →
  files w !! resolve w tp = Some bt →
  decode_font bf size = Ok fnt →
  decode_image bt = Ok img →
  Forall (λ q, q ∈ dirs w ∨ (q ∉ dom (files w)) ∧ (q ∉ denied w))
    (ancestors (resolve w out)) →
  __init__ tp fp size color out w
  = (Ok {| template_path := tp; font_path := fp; font_size := size;
           font_color := color; output_dir := out; font := fnt;
           template := fresh (dom (heap w));
           width := (image_size img).1; height := (image_size img).2 |},
     set_dirs (list_to_set (ancestors (resolve w out)) ∪ dirs w)
       (set_heap (<[fresh (dom (heap w)) := img]> (heap w))
          (add_call (CallImageOpen tp)
             (add_call (CallTruetype fp size) w)))).
Proof.
  intros Hbf Hbt Hfnt Himg Hdirs. unfold __init__.
  rewrite bind_run, (_validate_paths_ok _ _ _ _ _ Hbt Hbf).
  rewrite bind_run, ImageFont_truetype_value, Hbf, Hfnt.
  rewrite bind_run, Image_open_value.
  change (resolve (add_call (CallTruetype fp size) w) tp) with (resolve w tp).
  change (files (add_call (CallTruetype fp size) w)) with (files w).
  rewrite Hbt, Himg.
  rewrite bind_run. unfold load. simpl. rewrite lookup_insert_eq.
  rewrite bind_run. unfold mkdir.
  by rewrite mkdir_each_ok.
Qed.

(** X17: when both files are there but the font does not decode,
    construction raises the decoder's error before the template is opened;
    when the font decodes and the template does not, it raises after both
    were tried.  Either way no directory is made and no file or image
    object is touched. *)
Theorem __init___decoder_failure tp fp size color out w bf bt :
  files w !! resolve w fp = Some bf →
  files w !! resolve w tp = Some bt →
  match decode_font bf size, decode_image bt with
  | Raise e, _ =>
      __init__ tp fp size color out w
      = (Raise e, add_call (CallTruetype fp size) w)
  | Ok _, Raise e =>
      __init__ tp fp size color out w
      = (Raise e,
         add_call (CallImageOpen tp) (add_call (CallTruetype fp size) w))
  | Ok _, Ok _ => True
  end.
Proof.
  intros Hbf Hbt.
  destruct (decode_font bf size) as [fnt|e] eqn:Hfnt.
  - destruct (decode_image bt) as [img|e] eqn:Himg; [done|].
    unfold __init__.
    rewrite bind_run, (_validate_paths_ok _ _ _ _ _ Hbt Hbf).
    rewrite bind_run, ImageFont_truetype_value, Hbf, Hfnt.
    rewrite bind_run, Image_open_value.
    change (resolve (add_call (CallTruetype fp size) w) tp)
      with (resolve w tp).
    change (files (add_call (CallTruetype fp size) w)) with (files w).
    by rewrite Hbt, Himg.
  - unfold __init__.
    rewrite bind_run, (_validate_paths_ok _ _ _ _ _ Hbt Hbf).
    by rewrite bind_run, ImageFont_truetype_value, Hbf, Hfnt.
Qed.

End Further.

Section Batches.
Context `{U : Unicode} `{I : Imaging}.

(** X18: a render never raises: it answers a path or [None], prints
    exactly one line (the success line of the name with a path, an error
    line of the name with [None]), removes no file, and leaves the current
    directory, the directories and the log of decoder calls as they were. *)
Theorem render_never_raises self name w :
  ∃ r w' l,
    generate_certificate self name w = (Ok r, w')
    ∧ stdout w' = stdout w ++ [l]
    ∧ match r with
      | Some p =>
          p = path_div (output_dir self) (output_filename name)
          ∧ l = PGenerated name
      | None => ∃ msg, l = PErrorGenerating name msg
      end
    ∧ dom (files w) ⊆ dom (files w')
    ∧ cwd w' = cwd w ∧ dirs w' = dirs w ∧ calls w' = calls w.
Proof.
  destruct (generate_certificate_spec self name w)
    as (r & w' & l & Hrun & (Hc & Hd & _ & Hcalls & _ & Hdom & Hout) & _ & Hr).
  exists r, w', l. repeat split; try done.
  destruct r as [p|]; [|done]. by destruct Hr as (? & ? & _).
Qed.

(** X19: a batch removes no file and makes or removes no directory; the
    current directory and the log of decoder calls stay as they were. *)
Theorem batch_keeps_files_and_directories self names w :
  dom (files w) ⊆ dom (files (generate_batch self names w).2)
  ∧ dirs (generate_batch self names w).2 = dirs w
  ∧ cwd (generate_batch self names w).2 = cwd w
  ∧ calls (generate_batch self names w).2 = calls w.
Proof.
  destruct (generate_batch_spec self names w)
    as (statuses & w' & -> & (Hc & Hd & _ & Hcalls & _ & Hdom & _) & _).
  done.
Qed.

Lemma renderable_same_setting self w w1 name :
  same_setting self w w1 → renderable self w name → renderable self w1 name.
Proof.
  intros (Hc & Hd & Hn & Ht) (img & box & img' & bytes & ? & ? & ? & ? & ? & ? & ?).
  exists img, box, img', bytes.
  rewrite (certificate_file_same_cwd _ _ _ _ Hc), Hd, Hn, Ht. done.
Qed.

Lemma same_setting_trans self w1 w2 w3 :
  same_setting self w1 w2 → same_setting self w2 w3 → same_setting self w1 w3.
Proof.
  intros (?&?&?&?) (?&?&?&?). repeat split; congruence.
Qed.

Lemma batch_loop_all_succeed self names successful failed w0 w :
  resolve w0 (output_dir self) ∈ dirs w0 →
  Forall (renderable self w0) names →
  same_setting self w0 w →
  (batch_loop self names successful failed w).1
  = Ok ((successful + length names)%nat, failed)
  ∧ same_setting self w0 (batch_loop self names successful failed w).2
  ∧ Forall (λ name, certificate_file self w0 name
                    ∈ dom (files (batch_loop self names successful failed w).2))
      names.
Proof.
  intros Hdir Hall. revert successful failed w.
  induction Hall as [|name rest Hname _ IH]; intros successful failed w Hw;
    simpl.
  { rewrite Nat.add_0_r. done. }
  rewrite bind_run.
  destruct (renderable_same_setting _ _ _ _ Hw Hname)
    as (img & box & img' & bytes & Ht & Hb & Hd & He & Hs & Hq & Hn).
  destruct (generate_certificate_success self name w img box img' bytes)
    as (w1 & Hrun & Hfiles & _); try done.
  { destruct Hw as (Hc & Hdirs & _).
    by rewrite (resolve_same_cwd _ _ _ Hc), Hdirs. }
  pose proof (render_same_setting self name w) as Hw1.
  rewrite Hrun in Hw1 |- *. simpl in Hw1.
  pose proof (same_setting_trans _ _ _ _ Hw Hw1) as Hw01.
  destruct (IH (successful + 1)%nat failed w1 Hw01) as (Hcount & Hset & Hin).
  split; [rewrite Hcount; do 2 f_equal; lia|]. split; [done|].
  constructor; [|done].
  assert (dom (files w1) ⊆ dom (files (batch_loop self rest
            (successful + 1) failed w1).2)) as Hmono.
  { destruct (batch_loop_spec self rest (successful + 1)%nat failed w1)
      as (? & ? & -> & (_&_&_&_&_&Hdom&_) & _). done. }
  apply Hmono. rewrite Hfiles, dom_insert_L.
  destruct Hw as (Hc & _).
  rewrite (certificate_file_same_cwd _ _ _ _ Hc).
  by apply elem_of_union_l, elem_of_singleton.
Qed.

(** X20: when the output directory exists and every name of the batch
    can be rendered (non-empty stem, measuring, drawing and encoding go
    through, nothing in the way of its file), the batch reports as many
    successes as names and no failure, and the certificate of every name
    is there at the end. *)
Theorem batch_all_succeed self names w :
  resolve w (output_dir self) ∈ dirs w →
  Forall (renderable self w) names →
  ∃ statuses w',
    generate_batch self names w = (Ok (), w')
    ∧ printed_since w w'
      = batch_report (length names) statuses (length names) 0
          (resolve w (output_dir self))
    ∧ Forall (λ name, certificate_file self w name ∈ dom (files w')) names.
Proof.
  intros Hdir Hall.
  set (w0 := add_stdout PRule (add_stdout (PGenerating (length names)) w)).
  destruct (batch_loop_all_succeed self names 0 0 w w0 Hdir Hall)
    as (Hcount & (Hc & _) & Hin); [done|].
  rewrite generate_batch_unfold. fold w0.
  destruct (batch_loop_spec self names 0 0 w0)
    as (statuses & w1 & Hrun & Hx & _ & _).
  rewrite Hrun in Hcount, Hc, Hin |- *. simpl in Hcount, Hc, Hin.
  injection Hcount as Hs Hf. rewrite Hs, Hf.
  destruct Hx as (_&_&_&_&_&_&Hout).
  exists statuses. eexists. split; [done|]. split; [|done].
  unfold printed_since, batch_report. simpl. rewrite Hout. subst w0. simpl.
  rewrite (resolve_same_cwd _ _ _ Hc).
  by rewrite <-!app_assoc, drop_app_length.
Qed.

End Batches.

(** * Closed instances of the further properties *)

Lemma safe_filename_fixes_clean_names_witness :
  safe_filename (U := ascii_only) (u "Alice Smith") = u "Alice Smith".
Proof.
  apply (safe_filename_fixes_clean_names (U := ascii_only)).
  - repeat constructor.
  - reflexivity.
  - reflexivity.
Defined.


Lemma render_writes_encoded_copy_witness :
  ∃ w',
    generate_certificate (U := ascii_only) demo_self (u "Alice Smith")
      demo_ready
    = (Ok (Some (path_div (output_dir demo_self)
                   (output_filename (U := ascii_only) (u "Alice Smith")))),
       w')
    ∧ files w'
      = <[certificate_file (U := ascii_only) demo_self demo_ready
            (u "Alice Smith") := u "PNG" ++ [1000; 400]]> (files demo_ready)
    ∧ printed_since demo_ready w' = [PGenerated (u "Alice Smith")].
Proof.
  eapply (render_writes_encoded_copy (U := ascii_only) (I := sketch_imaging)
            demo_self (u "Alice Smith") demo_ready).
  - by_evaluation.
  - by_evaluation.
  - by_evaluation.
  - by_evaluation.
  - vm_compute. discriminate.
  - by_decision.
  - by_decision.
  - by_decision.
Defined.

Lemma render_success_content_witness :
  ∃ img box img' bytes,
    [u "certificates"; u "Alice Smith.png"]
    = path_div (output_dir demo_self)
        (output_filename (U := ascii_only) (u "Alice Smith"))
    ∧ safe_filename (U := ascii_only) (u "Alice Smith") ≠ []
    ∧ heap demo_ready !! template demo_self = Some img
    ∧ textbbox (0, 0)%Z (u "Alice Smith") (font demo_self) = Ok box
    ∧ draw_text img (centred demo_self box) (u "Alice Smith")
        (font_color demo_self) (font demo_self) = Ok img'
    ∧ encode (u "PNG") img' = Ok bytes
    ∧ files (generate_certificate (U := ascii_only) demo_self
               (u "Alice Smith") demo_ready).2
      = <[certificate_file (U := ascii_only) demo_self demo_ready
            (u "Alice Smith") := bytes]> (files demo_ready).
Proof.
  apply (render_success_content (U := ascii_only) (I := sketch_imaging)
           demo_self (u "Alice Smith") demo_ready).
  by_evaluation.
Defined.

Lemma batch_touches_only_certificates_witness :
  files (generate_batch (U := ascii_only) demo_self
           [u "Alice Smith"; u "Bob"] demo_ready).2
  !! (demo_cwd ++ [u "template.png"])
  = files demo_ready !! (demo_cwd ++ [u "template.png"]).
Proof.
  apply (batch_touches_only_certificates (U := ascii_only)
           (I := sketch_imaging)).
  intros name Hin. rewrite !elem_of_cons, elem_of_nil in Hin.
  destruct Hin as [->|[->|[]]]; vm_compute; discriminate.
Defined.

Lemma same_stem_last_write_wins_witness :
  [u "certificates"; u "Bob.png"] = [u "certificates"; u "Bob.png"]
  ∧ ∃ img box img' bytes,
      heap demo_ready !! template demo_self = Some img
      ∧ textbbox (0, 0)%Z (u "Bob") (font demo_self) = Ok box
      ∧ draw_text img (centred demo_self box) (u "Bob")
          (font_color demo_self) (font demo_self) = Ok img'
      ∧ encode (u "PNG") img' = Ok bytes
      ∧ files
          (generate_certificate (U := ascii_only) demo_self (u "Bob")
             (generate_certificate (U := ascii_only) demo_self (u "Bob!")
                demo_ready).2).2
        = <[certificate_file (U := ascii_only) demo_self demo_ready
              (u "Bob") := bytes]> (files demo_ready).
Proof.
  apply (same_stem_last_write_wins (U := ascii_only) (I := sketch_imaging)
           demo_self (u "Bob!") (u "Bob") demo_ready
           [u "certificates"; u "Bob.png"]
           (generate_certificate (U := ascii_only) demo_self (u "Bob!")
              demo_ready).2
           [u "certificates"; u "Bob.png"]).
  - reflexivity.
  - by_evaluation.
  - by_evaluation.
Defined.

Lemma batch_without_output_directory_witness :
  ∃ statuses w',
    generate_batch (U := ascii_only) demo_self [u "Alice Smith"; u "Bob"]
      demo_no_directory = (Ok (), w')
    ∧ printed_since demo_no_directory w'
      = batch_report 2 statuses 0 2
          (resolve demo_no_directory (output_dir demo_self))
    ∧ files w' = files demo_no_directory.
Proof.
  apply (batch_without_output_directory (U := ascii_only)
           (I := sketch_imaging) demo_self [u "Alice Smith"; u "Bob"]).
  by_decision.
Defined.

Lemma read_names_returns_column_witness :
  ∃ cells,
    read_names_from_csv (I := sketch_imaging) (T := names_table)
      config_csv_path (u "name") demo_world
    = (Ok cells, add_call (CallReadCsv config_csv_path) demo_world)
    ∧ column [(u "id", [u "1"; u "2"]);
              (u "name", [u "Alice Smith"; u "Bob"])] (u "name")
      = Some cells
    ∧ (u "name", cells)
      ∈ [(u "id", [u "1"; u "2"]); (u "name", [u "Alice Smith"; u "Bob"])].
Proof.
  apply (read_names_returns_column (I := sketch_imaging) (T := names_table)
           config_csv_path (u "name") demo_world [1]).
  - by_evaluation.
  - reflexivity.
  - by_decision.
Defined.

Lemma main_no_names_witness :
  ∃ w',
    main (U := ascii_only) (T := empty_table) demo_world = (Ok (), w')
    ∧ last (stdout w') = Some PNoNames
    ∧ files w' = files demo_world ∧ dirs w' = dirs demo_world
    ∧ heap w' = heap demo_world
    ∧ calls w'
      = calls demo_world
        ++ [CallReadCsv config_csv_path; CallReadCsv config_csv_path].
Proof.
  apply (main_no_names (U := ascii_only) (I := sketch_imaging)
           (T := empty_table) demo_world [1]
           [(u "id", []); (u "name", [])]).
  - by_evaluation.
  - reflexivity.
  - reflexivity.
Defined.

Lemma main_renders_name_column_witness :
  ∃ w3,
    (cwd w3 = cwd demo_world ∧ files w3 = files demo_world
     ∧ dirs w3 = dirs demo_world ∧ denied w3 = denied demo_world
     ∧ heap w3 = heap demo_world)
    ∧ main (U := ascii_only) (T := names_table) demo_world
      = match __init__ (I := sketch_imaging) config_template_path
                config_font_path config_font_size config_font_color
                config_output_dir w3 with
        | (Ok generator, w4) =>
            generate_batch (U := ascii_only) generator
              [u "Alice Smith"; u "Bob"] w4
        | (Raise e, w4) => (Ok (), add_stdout (PError (exn_msg e)) w4)
        end.
Proof.
  apply (main_renders_name_column (U := ascii_only) (I := sketch_imaging)
           (T := names_table) demo_world [1]
           [(u "id", [u "1"; u "2"]);
            (u "name", [u "Alice Smith"; u "Bob"])]).
  - by_evaluation.
  - reflexivity.
  - reflexivity.
  - discriminate.
Defined.

Lemma __init___builds_generator_witness :
  (∃ bf, files demo_world !! resolve demo_world [u "font.ttf"] = Some bf
         ∧ decode_font bf 100 = Ok (font demo_self))
  ∧ (∃ bt img,
       files demo_world !! resolve demo_world [u "template.png"] = Some bt
       ∧ decode_image bt = Ok img
       ∧ (template demo_self ∉ dom (heap demo_world))
       ∧ heap demo_ready = <[template demo_self := img]> (heap demo_world)
       ∧ image_size img = (width demo_self, height demo_self))
  ∧ output_dir demo_self = [u "certificates"]
  ∧ font_color demo_self = u "#86529f"
  ∧ files demo_ready = files demo_world
  ∧ calls demo_ready
    = calls demo_world
      ++ [CallTruetype [u "font.ttf"] 100; CallImageOpen [u "template.png"]]
  ∧ stdout demo_ready = stdout demo_world
  ∧ dirs demo_world ⊆ dirs demo_ready
  ∧ Forall (λ q, q ∈ dirs demo_ready)
      (ancestors (resolve demo_world [u "certificates"]))
  ∧ (resolve demo_world [u "certificates"] = []
     ∨ resolve demo_world [u "certificates"] ∈ dirs demo_ready).
Proof.
  apply (__init___builds_generator (I := sketch_imaging) [u "template.png"]
           [u "font.ttf"] 100 (u "#86529f") [u "certificates"] demo_world
           demo_self demo_ready).
  by_evaluation.
Defined.

Lemma __init___succeeds_witness :
  __init__ (I := sketch_imaging) [u "template.png"] [u "font.ttf"] 100
    (u "#86529f") [u "certificates"] demo_world
  = (Ok (@Build_CertificateGenerator sketch_imaging [u "template.png"]
           [u "font.ttf"] 100 (u "#86529f") [u "certificates"] 100%Z
           (fresh (dom (heap demo_world))) 1000 400),
     set_dirs
       (list_to_set (ancestors (resolve demo_world [u "certificates"]))
        ∪ dirs demo_world)
       (set_heap
          (<[fresh (dom (heap demo_world)) := Sketch (1000, 400)%Z []]>
             (heap demo_world))
          (add_call (CallImageOpen [u "template.png"])
             (add_call (CallTruetype [u "font.ttf"] 100) demo_world)))).
Proof.
  apply (__init___succeeds (I := sketch_imaging) [u "template.png"]
           [u "font.ttf"] 100 (u "#86529f") [u "certificates"] demo_world
           [1] [1000; 400] 100%Z (Sketch (1000, 400)%Z [])).
  - by_evaluation.
  - by_evaluation.
  - reflexivity.
  - reflexivity.
  - by_decision.
Defined.

Lemma __init___decoder_failure_witness :
  __init__ (I := sketch_imaging) [u "template.png"] [u "font.ttf"] 100
    (u "#86529f") [u "certificates"] demo_bad_font
  = (Raise (Exn OSError (u "unknown file format")),
     add_call (CallTruetype [u "font.ttf"] 100) demo_bad_font).
Proof.
  apply (__init___decoder_failure (I := sketch_imaging) [u "template.png"]
           [u "font.ttf"] 100 (u "#86529f") [u "certificates"] demo_bad_font
           [] [1000; 400]).
  - by_evaluation.
  - by_evaluation.
Defined.

Lemma batch_all_succeed_witness :
  ∃ statuses w',
    generate_batch (U := ascii_only) demo_self [u "Alice Smith"; u "Bob"]
      demo_ready = (Ok (), w')
    ∧ printed_since demo_ready w'
      = batch_report 2 statuses 2 0 (resolve demo_ready (output_dir demo_self))
    ∧ Forall (λ name, certificate_file (U := ascii_only) demo_self demo_ready
                        name ∈ dom (files w'))
        [u "Alice Smith"; u "Bob"].
Proof.
  apply (batch_all_succeed (U := ascii_only) (I := sketch_imaging) demo_self
           [u "Alice Smith"; u "Bob"] demo_ready).
  - by_decision.
  - repeat constructor.
    + eexists _, _, _, _.
      split; [by_evaluation|]. split; [by_evaluation|].
      split; [by_evaluation|]. split; [by_evaluation|].
      split; [vm_compute; discriminate|]. split; by_decision.
    + eexists _, _, _, _.
      split; [by_evaluation|]. split; [by_evaluation|].
      split; [by_evaluation|]. split; [by_evaluation|].
      split; [vm_compute; discriminate|]. split; by_decision.
Defined.
